(** * gdsfactory.simulation.gmsh.parse_gds

    A shallow embedding of the GDS polygon preprocessing module
    ([round_coordinates], [fuse_polygons], [cleanup_component],
    [to_polygons], [to_lines], [tile_shapes]) and the properties of the
    layer fusion and tiling pipeline.

    The module is written against three collaborators it does not define:
    - Python's builtin [round] on floats,
    - the shapely geometry library (constructors, [difference],
      [unary_union], [simplify], [shapely.ops.transform]),
    - the layout and the layer stack ([extract], [get_polygons], [to_dict]).
    Each collaborator is an interface (a type class); the functions of the
    module are translated once, over the interfaces. A small concrete
    implementation of the interfaces over integer coordinates is given at the
    end of the definitions and is used to run the functions on examples. *)

From Stdlib Require Import List ZArith Lia String Bool Permutation Arith.
Import ListNotations.

Local Open Scope string_scope.
Local Open Scope list_scope.

(** ** Calls that may raise *)

(** The outcome of a Python call: a returned value, or a raised exception
    recorded by the name of its class. *)
Inductive result (A : Type) : Type :=
| Ok (a : A)
| Raise (e : string).

Arguments Ok {A} a.
Arguments Raise {A} e.

Definition bind {A B : Type} (m : result A) (k : A -> result B) : result B :=
  match m with
  | Ok a => k a
  | Raise e => Raise e
  end.

Notation "x <- m ;; k" := (bind m (fun x => k))
  (at level 61, m at next level, right associativity).

(** A list comprehension whose element expression may raise. *)
Fixpoint mapM {A B : Type} (f : A -> result B) (l : list A) : result (list B) :=
  match l with
  | [] => Ok []
  | a :: rest => b <- f a ;; bs <- mapM f rest ;; Ok (b :: bs)
  end.

(** A [for] loop over [l] updating one local variable; an exception raised by
    the body leaves the loop. *)
Fixpoint foldM {A S : Type} (body : S -> A -> result S) (l : list A) (s : S)
  : result S :=
  match l with
  | [] => Ok s
  | a :: rest => s' <- body s a ;; foldM body rest s'
  end.

(** ** Python dictionaries

    A [dict] keeps its entries in insertion order, and [tile_shapes] depends on
    that order, so a dictionary is the list of its items. *)
Module Dict.

Definition dict (V : Type) : Type := list (string * V).

Definition items {V : Type} (d : dict V) : list (string * V) := d.
Definition keys {V : Type} (d : dict V) : list string := map fst d.
Definition values {V : Type} (d : dict V) : list V := map snd d.

Fixpoint get {V : Type} (d : dict V) (k : string) : option V :=
  match d with
  | [] => None
  | (k', v) :: rest => if String.eqb k' k then Some v else get rest k
  end.

(** [d[k] = v]: an existing key keeps its position, a new key goes last. *)
Fixpoint set {V : Type} (d : dict V) (k : string) (v : V) : dict V :=
  match d with
  | [] => [(k, v)]
  | (k', v') :: rest =>
      if String.eqb k' k then (k', v) :: rest else (k', v') :: set rest k v
  end.

End Dict.
Import Dict.

(** [enumerate(xs)] as a list. *)
Definition enumerate {A : Type} (l : list A) : list (nat * A) :=
  combine (seq 0 (List.length l)) l.

(** [s in names] for a list of string literals. *)
Definition str_in (s : string) (names : list string) : bool :=
  existsb (String.eqb s) names.

(** ** Builtin [round] *)

(** [C] stands for Python's [float]; [round x ndigits] is the builtin
    [round(x, ndigits)]. *)
Class PyFloat (C : Type) : Type := {
  round : C -> Z -> C
}.

(** ** Shapely geometries *)

Section Geometry.

Context {C : Type}.

(** A coordinate tuple: [(x, y)] or [(x, y, z)]. *)
Record coordinate : Type := Coord {
  coord_x : C;
  coord_y : C;
  coord_z : option C
}.

Definition ring : Type := list coordinate.

(** The geometry classes the module imports. The parts of a multi-geometry
    are stored as the data of its parts, so that [geoms] of a [MultiPolygon]
    are polygons and [geoms] of a [MultiLineString] are line strings. *)
Inductive geometry : Type :=
| LineString (coords : list coordinate)
| Polygon (shell : ring) (holes : list ring)
| MultiLineString (lines : list (list coordinate))
| MultiPolygon (polygons : list (ring * list ring)).

(** [g.geom_type] *)
Definition geom_type (g : geometry) : string :=
  match g with
  | LineString _ => "LineString"
  | Polygon _ _ => "Polygon"
  | MultiLineString _ => "MultiLineString"
  | MultiPolygon _ => "MultiPolygon"
  end.

(** [g.geoms]; [None] when the object has no such attribute, so that
    [hasattr(g, "geoms")] is [geoms g <> None]. *)
Definition geoms (g : geometry) : option (list geometry) :=
  match g with
  | LineString _ => None
  | Polygon _ _ => None
  | MultiLineString lines => Some (map LineString lines)
  | MultiPolygon polygons =>
      Some (map (fun p => Polygon (fst p) (snd p)) polygons)
  end.

(** [isinstance(g, Polygon)] and [isinstance(g, LineString)] *)
Definition isinstance_Polygon (g : geometry) : bool :=
  match g with Polygon _ _ => true | _ => false end.

Definition isinstance_LineString (g : geometry) : bool :=
  match g with LineString _ => true | _ => false end.

(** [shapely.ops.transform(func, geom)]: [func] is applied to every
    coordinate tuple ([func(x, y)] or [func(x, y, z)]) and a geometry of the
    same type is rebuilt from the results, ring by ring and part by part.
    [func] returns the new coordinate tuple. *)
Definition transform_coords (func : C -> C -> option C -> coordinate)
  (cs : list coordinate) : list coordinate :=
  map (fun c => func (coord_x c) (coord_y c) (coord_z c)) cs.

Definition transform (func : C -> C -> option C -> coordinate)
  (geom : geometry) : geometry :=
  match geom with
  | LineString cs => LineString (transform_coords func cs)
  | Polygon shell holes =>
      Polygon (transform_coords func shell)
              (map (transform_coords func) holes)
  | MultiLineString lines =>
      MultiLineString (map (transform_coords func) lines)
  | MultiPolygon polygons =>
      MultiPolygon
        (map (fun p => (transform_coords func (fst p),
                        map (transform_coords func) (snd p))) polygons)
  end.

(** A ring is closed when its first and last coordinate tuples agree. *)
Definition closed (r : ring) : Prop :=
  match r with
  | [] => True
  | first :: _ => last r first = first
  end.

End Geometry.

Arguments coordinate C : clear implicits.
Arguments ring C : clear implicits.
Arguments geometry C : clear implicits.

(** The part of shapely that is used through GEOS: constructors that validate
    their argument (and may raise), and the set operations. *)
Class Shapely (C : Type) : Type := {
  (** [Polygon(coordinates)] from a raw ring of [(x, y)] pairs *)
  new_Polygon : list (C * C) -> result (geometry C);
  (** [MultiPolygon(polygons)] *)
  new_MultiPolygon : list (geometry C) -> result (geometry C);
  (** [MultiLineString(lines)] *)
  new_MultiLineString : list (geometry C) -> result (geometry C);
  (** [a.difference(b)] *)
  difference : geometry C -> geometry C -> geometry C;
  (** [shapely.ops.unary_union(geometries)] *)
  unary_union : list (geometry C) -> geometry C;
  (** [g.simplify(tolerance, preserve_topology=...)] *)
  simplify : geometry C -> C -> bool -> geometry C
}.

(** The region of the plane a geometry stands for: [occupies g p] tells whether
    location [p] belongs to the area or curve [g]. It is not called by the
    module; the properties of tiling are stated with it. *)
Class Plane (C : Type) : Type := {
  location : Type;
  occupies : geometry C -> location -> bool
}.

(** Some part of [gs] occupies [p]. *)
Definition covered {C : Type} `{Plane C} (gs : list (geometry C))
  (p : location) : bool :=
  existsb (fun g => occupies g p) gs.

(** ** Layout and layer stack *)

(** The layout ([ComponentOrReference]): [component.extract(layer)] and
    [component.get_polygons()], the latter a sequence of raw rings of
    [(x, y)] pairs. *)
Class Layout (C Component Selector : Type) : Type := {
  extract : Component -> Selector -> Component;
  get_polygons : Component -> list (list (C * C))
}.

(** An entry of [layerstack.to_dict()]: the ["layer"] field is the selector
    of the layer, or [None]. *)
Record LayerLevel (Selector : Type) : Type := {
  layer : option Selector
}.

Arguments layer {Selector} _.

Class LayerStackProvider (LayerStack Selector : Type) : Type := {
  to_dict : LayerStack -> dict (LayerLevel Selector)
}.

(** ** The module *)

Section ParseGds.

Context {C : Type} `{PyFloat C} `{Shapely C}.

(** The inner function of [round_coordinates]. The list
    [[c for c in (x, y, z) if c is not None]] has two or three elements and
    is the new coordinate tuple. *)
Definition _round_coords (ndigits : Z) (x y : C) (z : option C)
  : coordinate C :=
  let x := round x ndigits in
  let y := round y ndigits in
  let z := match z with
           | Some _ => Some (round x ndigits)
           | None => None
           end in
  Coord x y z.

Definition round_coordinates (geom : geometry C) (ndigits : Z)
  : geometry C :=
  transform (_round_coords ndigits) geom.

Context {Component Selector : Type} `{Layout C Component Selector}.

(** The local list [shapely_polygons] of [fuse_polygons]. *)
Definition shapely_polygons (component : Component) (layer : Selector)
  (round_tol : Z) : result (list (geometry C)) :=
  let layer_component := extract component layer in
  mapM (fun polygon =>
          p <- new_Polygon polygon ;;
          Ok (round_coordinates p round_tol))
       (get_polygons layer_component).

Definition fuse_polygons (component : Component) (layername : string)
  (layer : Selector) (round_tol : Z) (simplify_tol : C)
  : result (geometry C) :=
  polygons <- shapely_polygons component layer round_tol ;;
  Ok (simplify (unary_union polygons) simplify_tol true).

(** One evaluation of [fuse_polygons(...)] by [cleanup_component], with its
    arguments. *)
Record fuse_call : Type := FuseCall {
  call_layername : string;
  call_layer : Selector;
  call_round_tol : Z;
  call_simplify_tol : C
}.

(** The dictionary comprehension of [cleanup_component], item by item:
    [acc] is the dictionary built so far. The first component of the outcome
    lists the calls of [fuse_polygons] in the order they are made. *)
Fixpoint cleanup_items (component : Component) (round_tol : Z)
  (simplify_tol : C) (items : list (string * LayerLevel Selector))
  (acc : dict (geometry C))
  : list fuse_call * result (dict (geometry C)) :=
  match items with
  | [] => ([], Ok acc)
  | (layername, level) :: rest =>
      match layer level with
      | None => cleanup_items component round_tol simplify_tol rest acc
      | Some sel =>
          let call := FuseCall layername sel round_tol simplify_tol in
          match fuse_polygons component layername sel round_tol
                              simplify_tol with
          | Ok region =>
              let (calls, out) :=
                cleanup_items component round_tol simplify_tol rest
                              (Dict.set acc layername region) in
              (call :: calls, out)
          | Raise e => ([call], Raise e)
          end
      end
  end.

Context {LayerStack : Type} `{LayerStackProvider LayerStack Selector}.

Definition cleanup_component (component : Component)
  (layerstack : LayerStack) (round_tol : Z) (simplify_tol : C)
  : list fuse_call * result (dict (geometry C)) :=
  let layerstack_dict := to_dict layerstack in
  cleanup_items component round_tol simplify_tol
                (Dict.items layerstack_dict) [].

(** The generator [to_polygons], run to exhaustion. *)
Fixpoint to_polygons (geometries : list (geometry C))
  : result (list (geometry C)) :=
  match geometries with
  | [] => Ok []
  | geometry :: rest =>
      yielded <- (if isinstance_Polygon geometry then Ok [geometry]
                  else match geoms geometry with
                       | Some gs => Ok gs
                       | None => Raise "AttributeError"
                       end) ;;
      more <- to_polygons rest ;;
      Ok (yielded ++ more)
  end.

(** The generator [to_lines], run to exhaustion. *)
Fixpoint to_lines (geometries : list (geometry C))
  : result (list (geometry C)) :=
  match geometries with
  | [] => Ok []
  | geometry :: rest =>
      yielded <- (if isinstance_LineString geometry then Ok [geometry]
                  else match geoms geometry with
                       | Some gs => Ok gs
                       | None => Raise "AttributeError"
                       end) ;;
      more <- to_lines rest ;;
      Ok (yielded ++ more)
  end.

(** [shapes.geoms if hasattr(shapes, "geoms") else [shapes]] *)
Definition geoms_or_self (shapes : geometry C) : list (geometry C) :=
  match geoms shapes with
  | Some gs => gs
  | None => [shapes]
  end.

(** The two inner loops of [tile_shapes] over the higher layers, for one
    [lower_shape]: the final value of [diff_shape]. [higher] is
    [reversed(list(enumerate(shapes_dict.items()))[:lower_index])]. *)
Definition subtract_higher (higher : list (nat * (string * geometry C)))
  (lower_shape : geometry C) : geometry C :=
  fold_left
    (fun diff_shape entry =>
       let higher_shapes := snd (snd entry) in
       fold_left (fun diff_shape higher_shape =>
                    difference diff_shape higher_shape)
                 (geoms_or_self higher_shapes) diff_shape)
    higher lower_shape.

(** The list [tiled_lower_shapes] at the end of the loop over the shapes of
    one layer. *)
Definition tiled_lower_shapes (shapes_dict : dict (geometry C))
  (lower_index : nat) (lower_shapes : geometry C) : list (geometry C) :=
  map (subtract_higher
         (rev (firstn lower_index (enumerate (Dict.items shapes_dict)))))
      (geoms_or_self lower_shapes).

(** The value stored for a layer: the [if]/[else] at the end of the outer
    loop body. *)
Definition pack_tiled (tiled : list (geometry C)) : result (geometry C) :=
  match tiled with
  | first :: _ =>
      if str_in (geom_type first) ["Polygon"; "MultiPolygon"] then
        polygons <- to_polygons tiled ;;
        new_MultiPolygon polygons
      else new_MultiLineString tiled
  | [] => new_MultiLineString tiled
  end.

Definition tile_shapes (shapes_dict : dict (geometry C))
  : result (dict (geometry C)) :=
  foldM
    (fun shapes_tiled_dict entry =>
       let lower_index := fst entry in
       let lower_name := fst (snd entry) in
       let lower_shapes := snd (snd entry) in
       tile <- pack_tiled
                 (tiled_lower_shapes shapes_dict lower_index lower_shapes) ;;
       Ok (Dict.set shapes_tiled_dict lower_name tile))
    (rev (enumerate (Dict.items shapes_dict)))
    [].

End ParseGds.

(** ** What is assumed of shapely *)

(** [g] is an area: a [Polygon] or a [MultiPolygon]. *)
Definition is_area {C : Type} (g : geometry C) : bool :=
  str_in (geom_type g) ["Polygon"; "MultiPolygon"].

(** The classes of the objects shapely returns. *)
Class ShapelyTyping (C : Type) `{Shapely C} : Prop := {
  new_MultiPolygon_type : forall gs g,
    new_MultiPolygon gs = Ok g -> geom_type g = "MultiPolygon";
  new_MultiLineString_type : forall gs g,
    new_MultiLineString gs = Ok g -> geom_type g = "MultiLineString";
  (** a sequence of polygons is accepted *)
  new_MultiPolygon_accepts : forall gs,
    forallb isinstance_Polygon gs = true ->
    exists g, new_MultiPolygon gs = Ok g;
  (** the empty sequence is accepted *)
  new_MultiLineString_empty : exists g, new_MultiLineString [] = Ok g;
  (** what remains of an area is an area, possibly an empty one *)
  difference_area : forall a b,
    is_area a = true -> is_area (difference a b) = true
}.

(** The regions of the objects shapely returns. *)
Class ShapelyRegions (C : Type) `{Shapely C} `{Plane C} : Prop := {
  occupies_geoms : forall g gs p,
    geoms g = Some gs -> occupies g p = covered gs p;
  occupies_new_MultiPolygon : forall gs g p,
    new_MultiPolygon gs = Ok g -> occupies g p = covered gs p;
  occupies_new_MultiLineString : forall gs g p,
    new_MultiLineString gs = Ok g -> occupies g p = covered gs p;
  occupies_difference : forall a b p,
    occupies (difference a b) p = occupies a p && negb (occupies b p);
  occupies_unary_union : forall gs p,
    occupies (unary_union gs) p = covered gs p
}.

(** ** What the specification says of rounding *)

(** Every coordinate of the tuple, the third one when present, rounded to
    [ndigits] digits: the rounding the specification describes, to compare
    with [_round_coords]. *)
Definition rounded_coordinate {C : Type} `{PyFloat C} (ndigits : Z)
  (c : coordinate C) : coordinate C :=
  Coord (round (coord_x c) ndigits) (round (coord_y c) ndigits)
        (option_map (fun z => round z ndigits) (coord_z c)).

(** ** An implementation of the interfaces on the integer grid

    GDS coordinates are integers (database units). On integer-valued floats
    [round(x, ndigits)] is the identity for [ndigits >= 0] and rounds half to
    even to a multiple of [10 ** -ndigits] otherwise. Regions are sets of unit
    cells; a polygon stands for the cells of the bounding box of its shell,
    which is exact for the axis-parallel rectangles of the examples; curves
    have no cell. *)
Module Grid.

Local Open Scope Z_scope.

Definition round_half_even (x m : Z) : Z :=
  let q := x / m in
  let r := x mod m in
  if 2 * r <? m then q * m
  else if m <? 2 * r then (q + 1) * m
  else if Z.even q then q * m else (q + 1) * m.

Definition round_Z (x ndigits : Z) : Z :=
  if 0 <=? ndigits then x else round_half_even x (10 ^ (- ndigits)).

#[export] Instance grid_float : PyFloat Z := {| round := round_Z |}.

Definition cell : Type := (Z * Z)%type.

Definition cell_eqb (a b : cell) : bool :=
  (fst a =? fst b) && (snd a =? snd b).

Definition lo (l : list Z) : Z := fold_right Z.min (hd 0 l) l.
Definition hi (l : list Z) : Z := fold_right Z.max (hd 0 l) l.

Definition xs (r : ring Z) : list Z := map (@coord_x Z) r.
Definition ys (r : ring Z) : list Z := map (@coord_y Z) r.

(** The cell with lower left corner [p] lies in the bounding box of [r]. *)
Definition in_box (r : ring Z) (p : cell) : bool :=
  (lo (xs r) <=? fst p) && (fst p <? hi (xs r))
  && (lo (ys r) <=? snd p) && (snd p <? hi (ys r)).

Definition zrange (a b : Z) : list Z :=
  map (fun k => a + Z.of_nat k) (seq 0 (Z.to_nat (b - a))).

Definition box_cells (r : ring Z) : list cell :=
  list_prod (zrange (lo (xs r)) (hi (xs r)))
            (zrange (lo (ys r)) (hi (ys r))).

Definition grid_occupies (g : geometry Z) (p : cell) : bool :=
  match g with
  | Polygon shell _ => in_box shell p
  | MultiPolygon polygons => existsb (fun q => in_box (fst q) p) polygons
  | LineString _ => false
  | MultiLineString _ => false
  end.

Definition cells (g : geometry Z) : list cell :=
  match g with
  | Polygon shell _ => box_cells shell
  | MultiPolygon polygons => flat_map (fun q => box_cells (fst q)) polygons
  | LineString _ => []
  | MultiLineString _ => []
  end.

#[export] Instance grid_plane : Plane Z :=
  {| location := cell; occupies := grid_occupies |}.

Definition unit_square (c : cell) : ring Z :=
  let (i, j) := c in
  [Coord i j None; Coord (i + 1) j None; Coord (i + 1) (j + 1) None;
   Coord i (j + 1) None; Coord i j None].

Definition squares (cs : list cell) : geometry Z :=
  MultiPolygon (map (fun c => (unit_square c, [])) cs).

Definition grid_difference (a b : geometry Z) : geometry Z :=
  if is_area a
  then squares (filter (fun c => negb (grid_occupies b c)) (cells a))
  else a.

Definition grid_unary_union (gs : list (geometry Z)) : geometry Z :=
  squares (flat_map cells gs).

Definition close_ring (r : ring Z) : ring Z :=
  match r with
  | [] => []
  | first :: _ =>
      let final := last r first in
      if (coord_x final =? coord_x first) && (coord_y final =? coord_y first)
      then r else r ++ [first]
  end.

(** A ring of one or two points is refused. *)
Definition grid_new_Polygon (raw : list (Z * Z)) : result (geometry Z) :=
  match raw with
  | [] => Ok (Polygon [] [])
  | _ =>
      if (List.length raw <? 3)%nat then Raise "ValueError"
      else Ok (Polygon
                 (close_ring (map (fun xy => Coord (fst xy) (snd xy) None) raw))
                 [])
  end.

Definition polygon_data (g : geometry Z) : list (ring Z * list (ring Z)) :=
  match g with Polygon shell holes => [(shell, holes)] | _ => [] end.

Definition line_data (g : geometry Z) : list (list (coordinate Z)) :=
  match g with LineString cs => [cs] | _ => [] end.

Definition grid_new_MultiPolygon (gs : list (geometry Z))
  : result (geometry Z) :=
  if forallb isinstance_Polygon gs
  then Ok (MultiPolygon (flat_map polygon_data gs))
  else Raise "TypeError".

Definition grid_new_MultiLineString (gs : list (geometry Z))
  : result (geometry Z) :=
  if forallb isinstance_LineString gs
  then Ok (MultiLineString (flat_map line_data gs))
  else Raise "TypeError".

#[export] Instance grid_shapely : Shapely Z := {|
  new_Polygon := grid_new_Polygon;
  new_MultiPolygon := grid_new_MultiPolygon;
  new_MultiLineString := grid_new_MultiLineString;
  difference := grid_difference;
  unary_union := grid_unary_union;
  simplify := fun g _ _ => g
|}.

(** Modelled from the spec: the source layout provider. A layout is the
    list of its raw polygons, each with the (layer, datatype) pair it is
    drawn on; [extract] keeps the polygons the selector matches and
    [get_polygons] lists the rings. *)
Definition component : Type := list ((Z * Z) * list (Z * Z)).

Definition selector : Type := (Z * Z)%type.

Definition grid_extract (c : component) (sel : selector) : component :=
  filter (fun e => cell_eqb (fst e) sel) c.

Definition grid_get_polygons (c : component) : list (list (Z * Z)) :=
  map snd c.

#[export] Instance grid_layout : Layout Z component selector := {|
  extract := grid_extract;
  get_polygons := grid_get_polygons
|}.

(** Modelled from the spec: the layer-stack configuration provider, an
    ordered enumeration of layer entries; the stack is its own dictionary. *)
Definition layer_stack : Type := dict (LayerLevel selector).

#[export] Instance grid_layer_stack : LayerStackProvider layer_stack selector :=
  {| to_dict := fun s => s |}.

(** Twice the signed area of a raw ring (shoelace formula). *)
Fixpoint shoelace_from (first : Z * Z) (r : list (Z * Z)) : Z :=
  match r with
  | [] => 0
  | p :: rest =>
      let q := hd first rest in
      fst p * snd q - fst q * snd p + shoelace_from first rest
  end.

Definition twice_area (r : list (Z * Z)) : Z :=
  match r with
  | [] => 0
  | first :: _ => shoelace_from first r
  end.

(** Degenerate: zero or negative area. *)
Definition degenerate (r : list (Z * Z)) : bool := twice_area r <=? 0.

Definition cell_dec (a b : cell) : {a = b} + {a <> b}.
Proof. decide equality; apply Z.eq_dec. Defined.

(** The number of cells of a region, each counted once. *)
Definition area (g : geometry Z) : nat :=
  List.length (nodup cell_dec (cells g)).

(** *** Example layouts *)

Definition rectangle (x0 y0 x1 y1 : Z) : list (Z * Z) :=
  [(x0, y0); (x1, y0); (x1, y1); (x0, y1)].

(** The polygon [new_Polygon] builds from a rectangle. *)
Definition rectangle_polygon (x0 y0 x1 y1 : Z) : geometry Z :=
  Polygon [Coord x0 y0 None; Coord x1 y0 None; Coord x1 y1 None;
           Coord x0 y1 None; Coord x0 y0 None] [].

(** A core of 10 x 10 on layer (1, 0) inside a cladding of 20 x 20 on
    layer (2, 0). *)
Definition chip : component :=
  [((1, 0), rectangle 0 0 10 10); ((2, 0), rectangle 0 0 20 20)].

(** Two overlapping squares on layer (1, 0), listed in the two possible
    orders. *)
Definition two_squares : component :=
  [((1, 0), rectangle 0 0 2 2); ((1, 0), rectangle 1 1 3 3)].

Definition two_squares_swapped : component :=
  [((1, 0), rectangle 1 1 3 3); ((1, 0), rectangle 0 0 2 2)].

(** A stack with the core above the cladding and a layer without
    geometry. *)
Definition stack : layer_stack :=
  [("core", {| layer := Some (1, 0) |});
   ("substrate", {| layer := None |});
   ("clad", {| layer := Some (2, 0) |})].

(** A stack whose selector matches no polygon of [chip]. *)
Definition stack_unmatched : layer_stack :=
  [("heater", {| layer := Some (47, 0) |})].

(** A layout with one polygon on layer (1, 0), of zero area: three points
    on a line. *)
Definition sliver : list (Z * Z) := [(0, 0); (1, 0); (2, 0)].

Definition chip_sliver : component := [((1, 0), sliver)].

(** The two squares of the scenarios of the specification, as fused
    regions: the core fully inside the cladding. *)
Definition core_in_clad : dict (geometry Z) :=
  [("core", rectangle_polygon 0 0 10 10);
   ("clad", rectangle_polygon 0 0 20 20)].

(** The core and the cladding on the same square. *)
Definition core_on_clad : dict (geometry Z) :=
  [("core", rectangle_polygon 0 0 10 10);
   ("clad", rectangle_polygon 0 0 10 10)].

(** A triangle with a third coordinate. *)
Definition triangle_xyz : geometry Z :=
  Polygon [Coord 0 0 (Some 5); Coord 4 0 (Some 5); Coord 4 3 (Some 5);
           Coord 0 0 (Some 5)] [].

(** A line string with coordinates that are not multiples of ten. *)
Definition path_xy : geometry Z :=
  LineString [Coord 14 25 None; Coord 35 (-25) None; Coord 1250 7 None].

End Grid.

(** ** Coordinates of a geometry *)

(** Every coordinate tuple of a geometry: the shell of a polygon before its
    holes, the parts of a multi-geometry in order. *)
Definition coords_of {C : Type} (g : geometry C) : list (coordinate C) :=
  match g with
  | LineString cs => cs
  | Polygon shell holes => shell ++ List.concat holes
  | MultiLineString lines => List.concat lines
  | MultiPolygon polygons =>
      flat_map (fun p => fst p ++ List.concat (snd p)) polygons
  end.

(** ** More layouts on the grid *)

Module GridCases.

Import Grid.
Local Open Scope Z_scope.

(** The two overlapping squares of [two_squares], the first one drawn
    twice. *)
Definition two_squares_repeated : component :=
  [((1, 0), rectangle 0 0 2 2); ((1, 0), rectangle 1 1 3 3);
   ((1, 0), rectangle 0 0 2 2)].

(** A layout whose layer (2, 0) has a ring of two points between two
    rectangles. *)
Definition chip_broken : component :=
  [((1, 0), rectangle 0 0 4 4);
   ((2, 0), rectangle 0 0 2 2); ((2, 0), [(0, 0); (1, 1)]);
   ((2, 0), rectangle 1 1 3 3);
   ((3, 0), rectangle 0 0 1 1)].

Definition stack_broken : layer_stack :=
  [("core", {| layer := Some (1, 0) |});
   ("substrate", {| layer := None |});
   ("clad", {| layer := Some (2, 0) |});
   ("top", {| layer := Some (3, 0) |})].

(** [stack] without its layer of no geometry. *)
Definition stack_defined : layer_stack :=
  [("core", {| layer := Some (1, 0) |});
   ("clad", {| layer := Some (2, 0) |})].

(** A square of 4 x 4 with a hole of 2 x 2. *)
Definition square_with_hole : geometry Z :=
  Polygon [Coord 0 0 None; Coord 4 0 None; Coord 4 4 None; Coord 0 4 None;
           Coord 0 0 None]
          [[Coord 1 1 None; Coord 1 3 None; Coord 3 3 None; Coord 3 1 None;
            Coord 1 1 None]].

(** Three layers, and the same with the two upper ones exchanged. *)
Definition three_layers : dict (geometry Z) :=
  [("core", rectangle_polygon 0 0 2 2);
   ("slab", rectangle_polygon 1 1 4 4);
   ("clad", rectangle_polygon 0 0 5 5)].

Definition three_layers_swapped : dict (geometry Z) :=
  [("slab", rectangle_polygon 1 1 4 4);
   ("core", rectangle_polygon 0 0 2 2);
   ("clad", rectangle_polygon 0 0 5 5)].




End GridCases.

(** * Properties *)

(** ** The result monad and dictionaries *)

Lemma bind_Ok {A B : Type} (m : result A) (k : A -> result B) (b : B) :
  bind m k = Ok b -> exists a, m = Ok a /\ k a = Ok b.
Proof.
  destruct m as [a | e]; simpl; intros Hk.
  - exists a; split; [reflexivity | exact Hk].
  - discriminate Hk.
Qed.

Lemma mapM_Ok {A B : Type} (f : A -> result B) (l : list A) (bs : list B) :
  mapM f l = Ok bs -> Forall2 (fun a b => f a = Ok b) l bs.
Proof.
  revert bs; induction l as [| a rest IH]; simpl; intros bs Hm.
  - injection Hm as <-. constructor.
  - apply bind_Ok in Hm as (b & Hb & Hm).
    apply bind_Ok in Hm as (bs' & Hrest & Hm).
    injection Hm as <-. constructor; auto.
Qed.

Lemma mapM_total {A B : Type} (f : A -> result B) (l : list A) :
  (forall a, In a l -> exists b, f a = Ok b) ->
  exists bs, mapM f l = Ok bs.
Proof.
  induction l as [| a rest IH]; simpl; intros Hf.
  - eexists; reflexivity.
  - destruct (Hf a (or_introl eq_refl)) as (b & ->).
    destruct IH as (bs & ->); [intros; apply Hf; auto |].
    eexists; reflexivity.
Qed.

Lemma mapM_Raise {A B : Type} (f : A -> result B) (l : list A) (a : A)
  (e : string) :
  In a l -> f a = Raise e -> exists e', mapM f l = Raise e'.
Proof.
  induction l as [| x rest IH]; simpl; intros Hin Hf; [contradiction |].
  destruct (f x) as [b | ex] eqn:Hx; simpl; [| eexists; reflexivity].
  destruct Hin as [-> | Hin]; [congruence |].
  destruct (IH Hin Hf) as (e' & ->). eexists; reflexivity.
Qed.

Lemma foldM_total {A S : Type} (body : S -> A -> result S) (l : list A) :
  (forall s a, In a l -> exists s', body s a = Ok s') ->
  forall s, exists out, foldM body l s = Ok out.
Proof.
  induction l as [| a rest IH]; simpl; intros Hbody s.
  - eexists; reflexivity.
  - destruct (Hbody s a (or_introl eq_refl)) as (s' & ->). simpl.
    apply IH. intros; apply Hbody; auto.
Qed.

Lemma set_fresh {V : Type} (d : dict V) (k : string) (v : V) :
  ~ In k (keys d) -> Dict.set d k v = d ++ [(k, v)].
Proof.
  induction d as [| [k' v'] rest IH]; simpl; intros Hk; [reflexivity |].
  destruct (String.eqb_spec k' k) as [-> | Hne].
  - exfalso; apply Hk; left; reflexivity.
  - rewrite IH; [reflexivity | intros Hin; apply Hk; right; exact Hin].
Qed.

Lemma keys_app {V : Type} (d1 d2 : dict V) :
  keys (d1 ++ d2) = keys d1 ++ keys d2.
Proof. apply map_app. Qed.

(** ** Enumeration *)

Lemma in_combine_seq {A : Type} (l : list A) (s i : nat) (x : A) :
  In (i, x) (combine (seq s (List.length l)) l) <->
  s <= i /\ nth_error l (i - s) = Some x.
Proof.
  revert s; induction l as [| a rest IH]; simpl; intros s.
  - split; [contradiction | intros [_ Hn]].
    destruct (i - s); discriminate Hn.
  - rewrite IH. split.
    + intros [Heq | [Hle Hn]].
      * injection Heq as <- <-. rewrite Nat.sub_diag.
        split; [lia | reflexivity].
      * split; [lia |]. replace (i - s) with (S (i - S s)) by lia. exact Hn.
    + intros [Hle Hn]. destruct (Nat.eq_dec s i) as [<- | Hne].
      * rewrite Nat.sub_diag in Hn. injection Hn as <-. left; reflexivity.
      * right. split; [lia |].
        replace (i - s) with (S (i - S s)) in Hn by lia. exact Hn.
Qed.

Lemma in_enumerate {A : Type} (l : list A) (i : nat) (x : A) :
  In (i, x) (enumerate l) <-> nth_error l i = Some x.
Proof.
  unfold enumerate. rewrite in_combine_seq, Nat.sub_0_r.
  split; [intros [_ Hn]; exact Hn | intros Hn; split; [lia | exact Hn]].
Qed.

Lemma map_snd_combine_seq {A : Type} (l : list A) (s : nat) :
  map snd (combine (seq s (List.length l)) l) = l.
Proof.
  revert s; induction l as [| a rest IH]; simpl; intros s;
    [reflexivity | rewrite IH; reflexivity].
Qed.

Lemma map_snd_enumerate {A : Type} (l : list A) :
  map snd (enumerate l) = l.
Proof. apply map_snd_combine_seq. Qed.

Lemma in_firstn_nth {A : Type} (l : list A) (n : nat) (x : A) :
  In x (firstn n l) <-> exists j, j < n /\ nth_error l j = Some x.
Proof.
  revert n; induction l as [| a rest IH]; intros [| n]; simpl.
  - split; [contradiction | intros (j & Hj & _); lia].
  - split; [contradiction | intros (j & _ & Hn); destruct j; discriminate Hn].
  - split; [contradiction | intros (j & Hj & _); lia].
  - rewrite IH. split.
    + intros [-> | (j & Hj & Hn)].
      * exists 0. split; [lia | reflexivity].
      * exists (S j). split; [lia | exact Hn].
    + intros ([| j] & Hj & Hn); simpl in Hn.
      * injection Hn as ->. left; reflexivity.
      * right. exists j. split; [lia | exact Hn].
Qed.

Lemma last_map {A B : Type} (f : A -> B) (l : list A) (d : A) :
  last (map f l) (f d) = f (last l d).
Proof.
  induction l as [| a [| b rest] IH]; [reflexivity | reflexivity |].
  exact IH.
Qed.

(** ** Rounding *)

Section RoundingFacts.

Context {C : Type} `{PyFloat C}.

Lemma transform_coords_twice (func : C -> C -> option C -> coordinate C)
  (cs : list (coordinate C)) :
  (forall x y z,
      let c := func x y z in
      func (coord_x c) (coord_y c) (coord_z c) = c) ->
  transform_coords func (transform_coords func cs) = transform_coords func cs.
Proof.
  intros Hf. unfold transform_coords. rewrite map_map.
  apply map_ext. intros c. apply Hf.
Qed.

Lemma transform_twice (func : C -> C -> option C -> coordinate C)
  (g : geometry C) :
  (forall x y z,
      let c := func x y z in
      func (coord_x c) (coord_y c) (coord_z c) = c) ->
  transform func (transform func g) = transform func g.
Proof.
  intros Hf.
  pose proof (transform_coords_twice func) as Hcs.
  destruct g as [cs | shell holes | lines | polygons]; simpl.
  - rewrite Hcs by exact Hf. reflexivity.
  - rewrite Hcs by exact Hf. rewrite map_map. f_equal.
    apply map_ext. intros r. apply Hcs, Hf.
  - rewrite map_map. f_equal. apply map_ext. intros r. apply Hcs, Hf.
  - rewrite map_map. f_equal. apply map_ext. intros [shell holes]. simpl.
    rewrite Hcs by exact Hf. rewrite map_map. f_equal.
    apply map_ext. intros r. apply Hcs, Hf.
Qed.

(** A coordinate tuple without third coordinate is rounded as the
    specification says. *)
Lemma _round_coords_xy (ndigits : Z) (x y : C) :
  _round_coords ndigits x y None = rounded_coordinate ndigits (Coord x y None).
Proof. reflexivity. Qed.

(** The third coordinate of the result is computed from [x], which has been
    rounded already. *)
Lemma _round_coords_xyz (ndigits : Z) (x y z : C) :
  _round_coords ndigits x y (Some z) =
  Coord (round x ndigits) (round y ndigits)
        (Some (round (round x ndigits) ndigits)).
Proof. reflexivity. Qed.

(** Rounding keeps the number of vertices of a ring, and a closed ring
    closed. *)
Lemma round_ring_length (ndigits : Z) (r : ring C) :
  List.length (transform_coords (_round_coords ndigits) r) = List.length r.
Proof. apply length_map. Qed.

Lemma round_ring_closed (ndigits : Z) (r : ring C) :
  closed r -> closed (transform_coords (_round_coords ndigits) r).
Proof.
  destruct r as [| first rest]; [trivial |].
  unfold closed, transform_coords. intros Hc.
  change (map ?f (first :: rest)) with (f first :: map f rest) at 1.
  cbv beta iota.
  set (f := fun c : coordinate C =>
              _round_coords ndigits (coord_x c) (coord_y c) (coord_z c)).
  change (last (map f (first :: rest)) (f first) = f first).
  rewrite last_map. f_equal. exact Hc.
Qed.

(** A polygon is rounded to a polygon with as many holes. *)
Lemma round_coordinates_holes (ndigits : Z) (shell : ring C)
  (holes : list (ring C)) :
  exists shell' holes',
    round_coordinates (Polygon shell holes) ndigits = Polygon shell' holes'
    /\ List.length holes' = List.length holes.
Proof.
  eexists; eexists; split; [reflexivity | apply length_map].
Qed.

(** C7. Rounding a geometry that [round_coordinates] has rounded to
    [ndigits] digits, to the same number of digits, returns the same
    geometry, for a builtin [round] that returns its own results unchanged
    when asked for the same number of digits. *)
Theorem round_coordinates_idempotent
  (round_fixed : forall (x : C) (n : Z), round (round x n) n = round x n)
  (geom : geometry C) (ndigits : Z) :
  round_coordinates (round_coordinates geom ndigits) ndigits
  = round_coordinates geom ndigits.
Proof.
  unfold round_coordinates. apply transform_twice.
  intros x y [z |]; unfold _round_coords; cbn;
    rewrite !round_fixed; reflexivity.
Qed.

End RoundingFacts.

(** ** Loops that fill a dictionary *)

Section DictLoops.

Context {E V : Type} (name : E -> string) (F : E -> result V).

(** A loop that stores [F e] under [name e] for every [e] of [l], the names
    being new and pairwise distinct, appends the entries in order. *)
Lemma foldM_set_entries (l : list E) (acc out : dict V) :
  NoDup (keys acc ++ map name l) ->
  foldM (fun d e => v <- F e ;; Ok (Dict.set d (name e) v)) l acc = Ok out ->
  exists vs,
    Forall2 (fun e v => F e = Ok v) l vs
    /\ out = acc ++ combine (map name l) vs.
Proof.
  revert acc; induction l as [| e rest IH]; simpl; intros acc Hnd Hf.
  - injection Hf as <-. exists []. split; [constructor |].
    rewrite app_nil_r; reflexivity.
  - apply bind_Ok in Hf as (d' & Hbody & Hf).
    apply bind_Ok in Hbody as (v & Hv & Hset). injection Hset as <-.
    assert (Hfresh : ~ In (name e) (keys acc)).
    { intros Hin. apply NoDup_remove_2 in Hnd. apply Hnd.
      apply in_or_app; left; exact Hin. }
    rewrite set_fresh in Hf by exact Hfresh.
    apply IH in Hf as (vs & Hvs & ->).
    + exists (v :: vs). split; [constructor; assumption |].
      rewrite <- app_assoc. reflexivity.
    + rewrite keys_app, <- app_assoc. exact Hnd.
Qed.

Variable P : E -> V -> Prop.

Lemma keys_combine (l : list E) (vs : list V) :
  Forall2 P l vs -> keys (combine (map name l) vs) = map name l.
Proof.
  induction 1 as [| e v l vs _ _ IH]; simpl; [| rewrite IH]; reflexivity.
Qed.

Lemma values_combine (l : list E) (vs : list V) :
  Forall2 P l vs -> values (combine (map name l) vs) = vs.
Proof.
  induction 1 as [| e v l vs _ _ IH]; simpl; [| rewrite IH]; reflexivity.
Qed.

Lemma get_combine (l : list E) (vs : list V) :
  Forall2 P l vs -> NoDup (map name l) ->
  forall e, In e l ->
  exists v, get (combine (map name l) vs) (name e) = Some v /\ P e v.
Proof.
  induction 1 as [| x v l vs Hxv _ IH]; simpl; intros Hnd e Hin;
    [contradiction |].
  inversion Hnd as [| ? ? Hnotin Hnd']; subst.
  destruct Hin as [-> | Hin].
  - rewrite String.eqb_refl. exists v; split; [reflexivity | exact Hxv].
  - destruct (String.eqb_spec (name x) (name e)) as [Heq | _].
    + exfalso. apply Hnotin. rewrite Heq. apply in_map; exact Hin.
    + apply IH; assumption.
Qed.

Lemma get_combine_inv (l : list E) (vs : list V) :
  Forall2 P l vs ->
  forall k v, get (combine (map name l) vs) k = Some v ->
  exists e, In e l /\ name e = k /\ P e v.
Proof.
  induction 1 as [| x w l vs Hxw _ IH]; simpl; intros k v Hget;
    [discriminate Hget |].
  destruct (String.eqb_spec (name x) k) as [Heq | _].
  - injection Hget as <-. exists x; auto.
  - destruct (IH _ _ Hget) as (e & Hin & Hk & Hp). exists e; auto.
Qed.

Lemma Forall2_in_right (l : list E) (vs : list V) :
  Forall2 P l vs -> forall v, In v vs -> exists e, In e l /\ P e v.
Proof.
  induction 1 as [| x w l vs Hxw _ IH]; simpl; intros v Hin;
    [contradiction |].
  destruct Hin as [-> | Hin]; [exists x; auto |].
  destruct (IH _ Hin) as (e & He & Hp). exists e; auto.
Qed.

Lemma Forall2_in_left (l : list E) (vs : list V) :
  Forall2 P l vs -> forall e, In e l -> exists v, In v vs /\ P e v.
Proof.
  induction 1 as [| x w l vs Hxw _ IH]; simpl; intros e Hin;
    [contradiction |].
  destruct Hin as [-> | Hin]; [exists w; auto |].
  destruct (IH _ Hin) as (v & Hv & Hp). exists v; auto.
Qed.

End DictLoops.

(** ** Tiling: the shape of the result *)

Section TilingShape.

Context {C : Type} `{Shapely C}.

(** [tile] is the value [tile_shapes] stores for the layer at position [i]
    with shapes [R]. *)
Let tile_of (d : dict (geometry C)) (i : nat) (R tile : geometry C) : Prop :=
  pack_tiled (tiled_lower_shapes d i R) = Ok tile.

Lemma names_rev_enumerate (d : dict (geometry C)) :
  map (fun e : nat * (string * geometry C) => fst (snd e))
      (rev (enumerate (Dict.items d)))
  = rev (keys d).
Proof.
  rewrite map_rev. f_equal. unfold Dict.items, keys.
  rewrite <- (map_snd_enumerate d) at 2. rewrite map_map. reflexivity.
Qed.

Lemma tile_shapes_shape (d out : dict (geometry C)) :
  NoDup (keys d) -> tile_shapes d = Ok out ->
  exists tiles,
    Forall2 (fun e t => tile_of d (fst e) (snd (snd e)) t)
            (rev (enumerate (Dict.items d))) tiles
    /\ out = combine (rev (keys d)) tiles.
Proof.
  intros Hnd Ht. unfold tile_shapes in Ht.
  apply (foldM_set_entries
           (fun e : nat * (string * geometry C) => fst (snd e))
           (fun e => pack_tiled (tiled_lower_shapes d (fst e) (snd (snd e)))))
    in Ht.
  - destruct Ht as (tiles & Hall & ->). exists tiles. split; [exact Hall |].
    rewrite names_rev_enumerate. reflexivity.
  - simpl. rewrite names_rev_enumerate.
    apply NoDup_rev. exact Hnd.
Qed.

Lemma tile_shapes_keys (d out : dict (geometry C)) :
  NoDup (keys d) -> tile_shapes d = Ok out -> keys out = rev (keys d).
Proof.
  intros Hnd Ht.
  destruct (tile_shapes_shape d out Hnd Ht) as (tiles & Hall & ->).
  rewrite <- names_rev_enumerate. eapply keys_combine. exact Hall.
Qed.

Lemma tile_shapes_get (d out : dict (geometry C)) :
  NoDup (keys d) -> tile_shapes d = Ok out ->
  forall i name R, nth_error d i = Some (name, R) ->
  exists t, get out name = Some t /\ tile_of d i R t.
Proof.
  intros Hnd Ht i name R Hi.
  destruct (tile_shapes_shape d out Hnd Ht) as (tiles & Hall & ->).
  rewrite <- names_rev_enumerate.
  apply (get_combine (fun e : nat * (string * geometry C) => fst (snd e))
           _ _ _ Hall) with (e := (i, (name, R))).
  - rewrite names_rev_enumerate. apply NoDup_rev. exact Hnd.
  - apply in_rev. rewrite rev_involutive. apply in_enumerate. exact Hi.
Qed.

Lemma tile_shapes_get_inv (d out : dict (geometry C)) :
  NoDup (keys d) -> tile_shapes d = Ok out ->
  forall name t, get out name = Some t ->
  exists i R, nth_error d i = Some (name, R) /\ tile_of d i R t.
Proof.
  intros Hnd Ht name t Hget.
  destruct (tile_shapes_shape d out Hnd Ht) as (tiles & Hall & ->).
  rewrite <- names_rev_enumerate in Hget.
  destruct (get_combine_inv _ _ _ _ Hall _ _ Hget)
    as ([i [n R]] & Hin & Hn & Hp).
  simpl in Hn, Hp; subst n. exists i, R. split; [| exact Hp].
  apply in_enumerate. apply in_rev in Hin. exact Hin.
Qed.

Lemma tile_shapes_values (d out : dict (geometry C)) :
  NoDup (keys d) -> tile_shapes d = Ok out ->
  forall t, In t (values out) <->
            exists i name R, nth_error d i = Some (name, R) /\ tile_of d i R t.
Proof.
  intros Hnd Ht t.
  destruct (tile_shapes_shape d out Hnd Ht) as (tiles & Hall & ->).
  rewrite <- names_rev_enumerate.
  rewrite (values_combine _ _ _ _ Hall). split.
  - intros Hin.
    destruct (Forall2_in_right _ _ _ Hall _ Hin) as ([i [n R]] & He & Hp).
    exists i, n, R. split; [| exact Hp].
    apply in_enumerate. apply in_rev in He. exact He.
  - intros (i & n & R & Hi & Hp).
    assert (He : In (i, (n, R)) (rev (enumerate (Dict.items d)))).
    { apply in_rev. rewrite rev_involutive. apply in_enumerate. exact Hi. }
    destruct (Forall2_in_left _ _ _ Hall _ He) as (t' & Hin & Hp').
    unfold tile_of in Hp, Hp'. simpl in Hp'.
    rewrite Hp in Hp'. injection Hp' as ->. exact Hin.
Qed.

End TilingShape.

(** ** Tiling: the classes of the tiles *)

Section TilingTypes.

Context {C : Type} `{Shapely C} {typing : ShapelyTyping C}.

Lemma isinstance_Polygon_area (g : geometry C) :
  isinstance_Polygon g = true -> is_area g = true.
Proof. destruct g; simpl; intros Hg; (discriminate Hg || reflexivity). Qed.

Lemma pack_tiled_type (tiled : list (geometry C)) (t : geometry C) :
  pack_tiled tiled = Ok t ->
  geom_type t =
    match tiled with
    | first :: _ =>
        if str_in (geom_type first) ["Polygon"; "MultiPolygon"]
        then "MultiPolygon" else "MultiLineString"
    | [] => "MultiLineString"
    end.
Proof.
  unfold pack_tiled. destruct tiled as [| first rest].
  - apply new_MultiLineString_type.
  - destruct (str_in (geom_type first) ["Polygon"; "MultiPolygon"]).
    + intros Hp. apply bind_Ok in Hp as (ps & _ & Hp).
      eapply new_MultiPolygon_type; exact Hp.
    + apply new_MultiLineString_type.
Qed.

Lemma subtract_higher_area (higher : list (nat * (string * geometry C)))
  (s : geometry C) :
  is_area s = true -> is_area (subtract_higher higher s) = true.
Proof.
  unfold subtract_higher. revert s.
  induction higher as [| e rest IH]; simpl; intros s Hs; [exact Hs |].
  apply IH. generalize (geoms_or_self (snd (snd e))). intros gs.
  revert s Hs. induction gs as [| g gs IHgs]; simpl; intros s Hs;
    [exact Hs |].
  apply IHgs. apply difference_area. exact Hs.
Qed.

Lemma geoms_or_self_area (R : geometry C) :
  is_area R = true ->
  Forall (fun g => is_area g = true) (geoms_or_self R).
Proof.
  destruct R as [cs | shell holes | lines | polygons]; simpl; intros HR;
    try discriminate HR.
  - constructor; [reflexivity | constructor].
  - unfold geoms_or_self; simpl. apply Forall_forall.
    intros g Hg. apply in_map_iff in Hg as (q & <- & _). reflexivity.
Qed.

Lemma to_polygons_areas (tiled : list (geometry C)) :
  Forall (fun g => is_area g = true) tiled ->
  exists ps, to_polygons tiled = Ok ps
             /\ forallb isinstance_Polygon ps = true.
Proof.
  induction 1 as [| g rest Hg _ (ps & Hps & Hall)]; simpl.
  - exists []. split; reflexivity.
  - rewrite Hps.
    destruct g as [cs | shell holes | lines | polygons]; simpl in *;
      try discriminate Hg.
    + eexists; split; [reflexivity |]. simpl. exact Hall.
    + eexists; split; [reflexivity |].
      rewrite forallb_app, Hall, andb_true_r.
      apply forallb_forall. intros g Hin.
      apply in_map_iff in Hin as (q & <- & _). reflexivity.
Qed.

Lemma pack_tiled_areas (tiled : list (geometry C)) :
  Forall (fun g => is_area g = true) tiled ->
  exists t, pack_tiled tiled = Ok t.
Proof.
  intros Hall. unfold pack_tiled. destruct tiled as [| first rest].
  - apply new_MultiLineString_empty.
  - assert (Hfirst : is_area first = true) by (inversion Hall; assumption).
    unfold is_area in Hfirst. rewrite Hfirst.
    destruct (to_polygons_areas _ Hall) as (ps & -> & Hps). simpl.
    apply new_MultiPolygon_accepts. exact Hps.
Qed.

(** On a map of areas [tile_shapes] returns. *)
Lemma tile_shapes_returns (d : dict (geometry C)) :
  Forall (fun g => is_area g = true) (values d) ->
  exists out, tile_shapes d = Ok out.
Proof.
  intros Hall. unfold tile_shapes. apply foldM_total.
  intros acc [i [name R]] Hin. simpl.
  apply in_rev, in_enumerate in Hin.
  assert (HR : is_area R = true).
  { rewrite Forall_forall in Hall. apply Hall.
    apply nth_error_In in Hin. unfold values.
    change R with (snd (name, R)). apply in_map. exact Hin. }
  destruct (pack_tiled_areas (tiled_lower_shapes d i R)) as (t & ->).
  - unfold tiled_lower_shapes. apply Forall_map.
    eapply Forall_impl; [| apply geoms_or_self_area; exact HR].
    intros g Hg. apply subtract_higher_area. exact Hg.
  - simpl. eexists; reflexivity.
Qed.

(** C10. Every value of the map [tile_shapes] returns is a [MultiPolygon]
    or a [MultiLineString], also for a layer given as a single [Polygon] or
    [LineString]; which of the two is decided by the class of the first
    element of [tiled_lower_shapes] of that layer alone: [MultiPolygon] when
    it is a [Polygon] or a [MultiPolygon], [MultiLineString] otherwise and
    when there is no first element. *)
Theorem tile_shapes_values_are_multi_shapes (d out : dict (geometry C)) :
  NoDup (keys d) ->
  tile_shapes d = Ok out ->
  (forall name t, get out name = Some t ->
     geom_type t = "MultiPolygon" \/ geom_type t = "MultiLineString")
  /\ (forall i name R, nth_error d i = Some (name, R) ->
        exists t, get out name = Some t
          /\ geom_type t =
               match tiled_lower_shapes d i R with
               | first :: _ =>
                   if str_in (geom_type first) ["Polygon"; "MultiPolygon"]
                   then "MultiPolygon" else "MultiLineString"
               | [] => "MultiLineString"
               end).
Proof.
  intros Hnd Ht. split.
  - intros name t Hget.
    destruct (tile_shapes_get_inv d out Hnd Ht name t Hget)
      as (i & R & _ & Hp).
    apply pack_tiled_type in Hp. rewrite Hp.
    destruct (tiled_lower_shapes d i R) as [| first rest];
      [right; reflexivity |].
    destruct (str_in (geom_type first) ["Polygon"; "MultiPolygon"]);
      [left | right]; reflexivity.
  - intros i name R Hi.
    destruct (tile_shapes_get d out Hnd Ht i name R Hi) as (t & Hget & Hp).
    exists t. split; [exact Hget |]. apply pack_tiled_type. exact Hp.
Qed.

End TilingTypes.

(** C9. The keys of the map [tile_shapes] returns are the keys of its
    argument in reverse order, so that the last layer of the argument is the
    first entry of the result. *)
Theorem tile_shapes_reverses_keys {C : Type} `{Shapely C}
  (d out : dict (geometry C)) :
  NoDup (keys d) ->
  tile_shapes d = Ok out ->
  keys out = rev (keys d)
  /\ (forall d' name R, d = d' ++ [(name, R)] ->
        exists t rest, out = (name, t) :: rest).
Proof.
  intros Hnd Ht. pose proof (tile_shapes_keys d out Hnd Ht) as Hk.
  split; [exact Hk |].
  intros d' name R ->. rewrite keys_app, rev_app_distr in Hk. simpl in Hk.
  destruct out as [| [k t] rest]; simpl in Hk; [discriminate Hk |].
  injection Hk as -> _. exists t, rest. reflexivity.
Qed.

(** ** Tiling: the regions of the tiles *)

Section TilingRegions.

Context {C : Type} `{Shapely C} `{Plane C} {regions : ShapelyRegions C}.

Lemma covered_true (gs : list (geometry C)) (p : location) :
  covered gs p = true <-> exists g, In g gs /\ occupies g p = true.
Proof. unfold covered. apply existsb_exists. Qed.

Lemma covered_app (gs gs' : list (geometry C)) (p : location) :
  covered (gs ++ gs') p = covered gs p || covered gs' p.
Proof. unfold covered. apply existsb_app. Qed.

Lemma covered_rev (gs : list (geometry C)) (p : location) :
  covered (rev gs) p = covered gs p.
Proof.
  apply Bool.eq_iff_eq_true. rewrite !covered_true.
  split; intros (g & Hin & Hg); exists g; split; try exact Hg.
  - apply in_rev. exact Hin.
  - apply in_rev in Hin. exact Hin.
Qed.

Lemma covered_geoms_or_self (g : geometry C) (p : location) :
  covered (geoms_or_self g) p = occupies g p.
Proof.
  unfold geoms_or_self. destruct (geoms g) as [gs |] eqn:Hg.
  - symmetry. apply occupies_geoms. exact Hg.
  - simpl. apply orb_false_r.
Qed.

Lemma occupies_fold_difference (gs : list (geometry C)) (s : geometry C)
  (p : location) :
  occupies (fold_left (fun diff_shape higher_shape =>
                         difference diff_shape higher_shape) gs s) p
  = occupies s p && negb (covered gs p).
Proof.
  revert s; induction gs as [| g gs IH]; simpl; intros s.
  - rewrite andb_true_r. reflexivity.
  - rewrite IH, occupies_difference.
    destruct (occupies s p), (occupies g p), (covered gs p); reflexivity.
Qed.

Lemma occupies_subtract_higher (higher : list (nat * (string * geometry C)))
  (s : geometry C) (p : location) :
  occupies (subtract_higher higher s) p
  = occupies s p
    && negb (covered (map (fun e => snd (snd e)) higher) p).
Proof.
  unfold subtract_higher. revert s.
  induction higher as [| e rest IH]; simpl; intros s.
  - rewrite andb_true_r. reflexivity.
  - rewrite IH, occupies_fold_difference, covered_geoms_or_self.
    destruct (occupies s p), (occupies (snd (snd e)) p); reflexivity.
Qed.

Lemma higher_shapes_firstn (d : dict (geometry C)) (i : nat) :
  map (fun e : nat * (string * geometry C) => snd (snd e))
      (firstn i (enumerate (Dict.items d)))
  = firstn i (values d).
Proof.
  rewrite <- firstn_map. f_equal. unfold Dict.items, values.
  rewrite <- (map_snd_enumerate d) at 2. rewrite map_map. reflexivity.
Qed.

Lemma covered_map_subtract_higher
  (higher : list (nat * (string * geometry C))) (gs : list (geometry C))
  (p : location) :
  covered (map (subtract_higher higher) gs) p
  = covered gs p && negb (covered (map (fun e => snd (snd e)) higher) p).
Proof.
  induction gs as [| g gs IH]; [reflexivity |].
  change (occupies (subtract_higher higher g) p
          || covered (map (subtract_higher higher) gs) p
          = (occupies g p || covered gs p)
            && negb (covered (map (fun e => snd (snd e)) higher) p)).
  rewrite IH, occupies_subtract_higher.
  destruct (occupies g p), (covered gs p),
    (covered (map (fun e => snd (snd e)) higher) p); reflexivity.
Qed.

Lemma covered_tiled_lower_shapes (d : dict (geometry C)) (i : nat)
  (R : geometry C) (p : location) :
  covered (tiled_lower_shapes d i R) p
  = occupies R p && negb (covered (firstn i (values d)) p).
Proof.
  unfold tiled_lower_shapes.
  rewrite covered_map_subtract_higher, covered_geoms_or_self.
  rewrite map_rev, covered_rev, higher_shapes_firstn. reflexivity.
Qed.

Lemma covered_to_polygons (tiled ps : list (geometry C)) (p : location) :
  to_polygons tiled = Ok ps -> covered ps p = covered tiled p.
Proof.
  revert ps; induction tiled as [| g rest IH]; simpl; intros ps Hp.
  - injection Hp as <-. reflexivity.
  - apply bind_Ok in Hp as (yielded & Hy & Hp).
    apply bind_Ok in Hp as (more & Hmore & Hp). injection Hp as <-.
    rewrite covered_app. fold (covered rest p).
    rewrite (IH more Hmore). f_equal.
    destruct (isinstance_Polygon g).
    + injection Hy as <-. simpl. apply orb_false_r.
    + destruct (geoms g) as [gs |] eqn:Hg; [| discriminate Hy].
      injection Hy as <-. symmetry. apply occupies_geoms. exact Hg.
Qed.

Lemma occupies_pack_tiled (tiled : list (geometry C)) (t : geometry C)
  (p : location) :
  pack_tiled tiled = Ok t -> occupies t p = covered tiled p.
Proof.
  unfold pack_tiled. destruct tiled as [| first rest].
  - apply occupies_new_MultiLineString.
  - destruct (str_in (geom_type first) ["Polygon"; "MultiPolygon"]).
    + intros Hp. apply bind_Ok in Hp as (ps & Hps & Hp).
      rewrite (occupies_new_MultiPolygon _ _ p Hp).
      apply covered_to_polygons. exact Hps.
    + apply occupies_new_MultiLineString.
Qed.

(** The region of the tile of the layer at position [i]. *)
Lemma occupies_tile (d : dict (geometry C)) (i : nat) (R t : geometry C)
  (p : location) :
  pack_tiled (tiled_lower_shapes d i R) = Ok t ->
  occupies t p = occupies R p && negb (covered (firstn i (values d)) p).
Proof.
  intros Hp. rewrite (occupies_pack_tiled _ _ p Hp).
  apply covered_tiled_lower_shapes.
Qed.

End TilingRegions.

(** ** Tiling: the theorems *)

Section TilingTheorems.

Context {C : Type} `{Shapely C} `{Plane C}.
Context {typing : ShapelyTyping C} {regions : ShapelyRegions C}.

(** The subtractions made for one shape, in order: the parts of the layers
    before it in [shapes_dict], nearest layer first. *)
Lemma subtract_higher_parts (higher : list (nat * (string * geometry C)))
  (s : geometry C) :
  subtract_higher higher s
  = fold_left (fun diff_shape higher_shape =>
                 difference diff_shape higher_shape)
              (flat_map geoms_or_self (map (fun e => snd (snd e)) higher)) s.
Proof.
  unfold subtract_higher. revert s.
  induction higher as [| e rest IH]; simpl; intros s; [reflexivity |].
  rewrite fold_left_app. apply IH.
Qed.

Lemma tiled_lower_shapes_parts (d : dict (geometry C)) (i : nat)
  (R : geometry C) :
  tiled_lower_shapes d i R
  = map (fun lower_shape =>
           fold_left (fun diff_shape higher_shape =>
                        difference diff_shape higher_shape)
                     (flat_map geoms_or_self (rev (firstn i (values d))))
                     lower_shape)
        (geoms_or_self R).
Proof.
  unfold tiled_lower_shapes. apply map_ext. intros s.
  rewrite subtract_higher_parts, map_rev, higher_shapes_firstn.
  reflexivity.
Qed.

Lemma nth_error_values (d : dict (geometry C)) (i : nat) (g : geometry C) :
  nth_error (values d) i = Some g <->
  exists name, nth_error d i = Some (name, g).
Proof.
  unfold values. rewrite nth_error_map.
  destruct (nth_error d i) as [[n g'] |]; simpl; split.
  - intros Hg. injection Hg as ->. exists n; reflexivity.
  - intros (name & Hn). injection Hn as _ ->. reflexivity.
  - discriminate.
  - intros (name & Hn). discriminate Hn.
Qed.

(** C1. In [shapes_dict] a layer has higher priority than the layers after
    it. For the layer [name] at position [i] with shapes [R], the value
    [tile_shapes] stores under [name] is packed from the parts of [R], each
    with the parts of the shapes of the layers before position [i]
    subtracted, these shapes being the ones of [shapes_dict] and not the
    values already stored; its region is the region of [R] without the
    regions of the layers before position [i]. On a map of areas
    [tile_shapes] returns. *)
Theorem tile_is_layer_minus_higher_layers (d : dict (geometry C)) :
  NoDup (keys d) ->
  (forall out, tile_shapes d = Ok out ->
   forall i name R, nth_error d i = Some (name, R) ->
   exists tile,
     get out name = Some tile
     /\ pack_tiled
          (map (fun lower_shape =>
                  fold_left (fun diff_shape higher_shape =>
                               difference diff_shape higher_shape)
                            (flat_map geoms_or_self
                                      (rev (firstn i (values d))))
                            lower_shape)
               (geoms_or_self R)) = Ok tile
     /\ forall p,
          occupies tile p
          = occupies R p && negb (covered (firstn i (values d)) p))
  /\ (Forall (fun g => is_area g = true) (values d) ->
      exists out, tile_shapes d = Ok out).
Proof.
  intros Hnd. split; [| apply tile_shapes_returns].
  intros out Ht i name R Hi.
  destruct (tile_shapes_get d out Hnd Ht i name R Hi) as (t & Hget & Hp).
  exists t. split; [exact Hget | split].
  - rewrite <- tiled_lower_shapes_parts. exact Hp.
  - intros p. apply occupies_tile. exact Hp.
Qed.

(** C2. The tiles [tile_shapes] returns partition the region its argument
    occupies: no location belongs to the tiles of two different layers, and
    a location belongs to some tile exactly when it belongs to the shapes of
    some layer of the argument. *)
Theorem tiles_partition_occupied_region (d out : dict (geometry C)) :
  NoDup (keys d) ->
  tile_shapes d = Ok out ->
  (forall a b ta tb, a <> b ->
     get out a = Some ta -> get out b = Some tb ->
     forall p, occupies ta p && occupies tb p = false)
  /\ (forall p, covered (values out) p = covered (values d) p).
Proof.
  intros Hnd Ht.
  assert (Hlt : forall i j a b Ra Rb ta tb p,
             i < j ->
             nth_error d i = Some (a, Ra) -> nth_error d j = Some (b, Rb) ->
             pack_tiled (tiled_lower_shapes d i Ra) = Ok ta ->
             pack_tiled (tiled_lower_shapes d j Rb) = Ok tb ->
             occupies ta p && occupies tb p = false).
  { intros i j a b Ra Rb ta tb p Hij Hi Hj Hta Htb.
    rewrite (occupies_tile d i Ra ta p Hta), (occupies_tile d j Rb tb p Htb).
    destruct (occupies Ra p) eqn:HRa; [| reflexivity].
    assert (Hc : covered (firstn j (values d)) p = true).
    { apply covered_true. exists Ra. split; [| exact HRa].
      apply in_firstn_nth. exists i. split; [exact Hij |].
      apply nth_error_values. exists a. exact Hi. }
    rewrite Hc. simpl. rewrite !andb_false_r. reflexivity. }
  split.
  - intros a b ta tb Hab Ha Hb p.
    destruct (tile_shapes_get_inv d out Hnd Ht a ta Ha) as (i & Ra & Hi & Hta).
    destruct (tile_shapes_get_inv d out Hnd Ht b tb Hb) as (j & Rb & Hj & Htb).
    destruct (Nat.lt_trichotomy i j) as [Hij | [Heq | Hji]].
    + eapply Hlt; eassumption.
    + subst j. rewrite Hi in Hj. injection Hj as Heq _. contradiction.
    + rewrite andb_comm. eapply Hlt; eassumption.
  - intros p. apply Bool.eq_iff_eq_true. rewrite !covered_true. split.
    + intros (t & Hin & Hocc).
      apply (tile_shapes_values d out Hnd Ht) in Hin
        as (i & name & R & Hi & Hp).
      rewrite (occupies_tile d i R t p Hp) in Hocc.
      apply andb_prop in Hocc as (HR & _).
      exists R. split; [| exact HR].
      apply nth_error_In with (n := i).
      apply nth_error_values. exists name. exact Hi.
    + intros (g & Hin & Hocc).
      apply In_nth_error in Hin as (i & Hi).
      apply nth_error_values in Hi as (name & Hi).
      revert name g Hi Hocc.
      induction i as [i IH] using lt_wf_ind. intros name g Hi Hocc.
      destruct (covered (firstn i (values d)) p) eqn:Hc.
      * apply covered_true in Hc as (g' & Hin' & Hocc').
        apply in_firstn_nth in Hin' as (j & Hj & Hnth).
        apply nth_error_values in Hnth as (name' & Hnth).
        exact (IH j Hj name' g' Hnth Hocc').
      * destruct (tile_shapes_get d out Hnd Ht i name g Hi)
          as (t & _ & Hp).
        exists t. split.
        -- apply (tile_shapes_values d out Hnd Ht).
           exists i, name, g. split; [exact Hi | exact Hp].
        -- rewrite (occupies_tile d i g t p Hp), Hocc, Hc. reflexivity.
Qed.

End TilingTheorems.

(** ** Fusion *)

Lemma mapM_Permutation {A B : Type} (f : A -> result B) (l l' : list A) :
  Permutation l l' ->
  forall bs, mapM f l = Ok bs ->
  exists bs', mapM f l' = Ok bs' /\ Permutation bs bs'.
Proof.
  induction 1 as [| a l l' _ IH | a b l | l l' l'' _ IH _ IH']; intros bs Hm.
  - exists bs. split; [exact Hm | apply Permutation_refl].
  - simpl in Hm. apply bind_Ok in Hm as (y & Hy & Hm).
    apply bind_Ok in Hm as (ys & Hys & Hm). injection Hm as <-.
    destruct (IH ys Hys) as (ys' & Hys' & Hperm).
    exists (y :: ys'). simpl. rewrite Hy, Hys'. simpl.
    split; [reflexivity | apply perm_skip; exact Hperm].
  - simpl in Hm. apply bind_Ok in Hm as (y & Hy & Hm).
    apply bind_Ok in Hm as (ys & Hys & Hm). injection Hm as <-.
    apply bind_Ok in Hys as (x & Hx & Hys).
    apply bind_Ok in Hys as (xs & Hxs & Hys). injection Hys as <-.
    exists (x :: y :: xs). simpl. rewrite Hx, Hy, Hxs. simpl.
    split; [reflexivity | apply perm_swap].
  - destruct (IH bs Hm) as (bs' & Hbs' & Hp).
    destruct (IH' bs' Hbs') as (bs'' & Hbs'' & Hp').
    exists bs''. split; [exact Hbs'' | eapply Permutation_trans; eassumption].
Qed.

Section FusionFacts.

Context {C : Type} `{PyFloat C} `{Shapely C}.
Context {Component Selector : Type} `{Layout C Component Selector}.

Lemma fuse_polygons_Ok (component : Component) (layername : string)
  (layer : Selector) (round_tol : Z) (simplify_tol : C)
  (region : geometry C) :
  fuse_polygons component layername layer round_tol simplify_tol = Ok region
  <-> exists ps, shapely_polygons component layer round_tol = Ok ps
                 /\ region = simplify (unary_union ps) simplify_tol true.
Proof.
  unfold fuse_polygons. split.
  - intros Hf. apply bind_Ok in Hf as (ps & Hps & Hf).
    injection Hf as <-. exists ps. split; [exact Hps | reflexivity].
  - intros (ps & -> & ->). reflexivity.
Qed.

(** C4, as the code has it. [fuse_polygons] looks at no area and drops no
    polygon: the list it unites has one rounded polygon for every raw
    polygon [get_polygons] lists for the layer, in the same order; and when
    the [Polygon] constructor raises on one of them, [fuse_polygons] raises
    and returns no region. *)
Theorem fuse_polygons_unites_every_polygon (component : Component)
  (layername : string) (layer : Selector) (round_tol : Z)
  (simplify_tol : C) :
  (forall region,
      fuse_polygons component layername layer round_tol simplify_tol
      = Ok region ->
      exists ps,
        region = simplify (unary_union ps) simplify_tol true
        /\ Forall2 (fun polygon g =>
                      exists p, new_Polygon polygon = Ok p
                                /\ g = round_coordinates p round_tol)
                   (get_polygons (extract component layer)) ps)
  /\ (forall polygon e,
        In polygon (get_polygons (extract component layer)) ->
        new_Polygon polygon = Raise e ->
        exists e',
          fuse_polygons component layername layer round_tol simplify_tol
          = Raise e').
Proof.
  split.
  - intros region Hf. apply fuse_polygons_Ok in Hf as (ps & Hps & ->).
    exists ps. split; [reflexivity |].
    unfold shapely_polygons in Hps. apply mapM_Ok in Hps.
    eapply Forall2_impl; [| exact Hps]. cbv beta.
    intros polygon g Hg. apply bind_Ok in Hg as (p & Hp & Hg).
    injection Hg as <-. exists p. split; [exact Hp | reflexivity].
  - intros polygon e Hin Hraise. unfold fuse_polygons, shapely_polygons.
    destruct (mapM_Raise
                (fun polygon0 => p <- new_Polygon polygon0 ;;
                                 Ok (round_coordinates p round_tol))
                _ polygon e Hin) as (e' & ->).
    + rewrite Hraise. reflexivity.
    + exists e'. reflexivity.
Qed.

Context `{Plane C} {regions : ShapelyRegions C}.

Lemma covered_Permutation (gs gs' : list (geometry C)) (p : location) :
  Permutation gs gs' -> covered gs p = covered gs' p.
Proof.
  intros Hperm. apply Bool.eq_iff_eq_true. unfold covered.
  rewrite !existsb_exists.
  split; intros (g & Hin & Hg); exists g; split; try exact Hg.
  - eapply Permutation_in; eassumption.
  - eapply Permutation_in; [apply Permutation_sym |]; eassumption.
Qed.

(** C6. When two layouts list the same raw polygons for a layer in
    different orders, [fuse_polygons] returns on the one when it returns on
    the other; the two results are the simplifications, with the same
    tolerance, of the unions of the same rounded polygons taken in different
    orders; the two unions have the same region, and when they are the same
    object the two results are the same. *)
Theorem fuse_polygons_order_independent (component component' : Component)
  (layername : string) (layer : Selector) (round_tol : Z)
  (simplify_tol : C) :
  Permutation (get_polygons (extract component layer))
              (get_polygons (extract component' layer)) ->
  forall region,
    fuse_polygons component layername layer round_tol simplify_tol
    = Ok region ->
    exists ps ps',
      Permutation ps ps'
      /\ region = simplify (unary_union ps) simplify_tol true
      /\ fuse_polygons component' layername layer round_tol simplify_tol
         = Ok (simplify (unary_union ps') simplify_tol true)
      /\ (forall p,
            occupies (unary_union ps) p = occupies (unary_union ps') p)
      /\ (unary_union ps = unary_union ps' ->
          fuse_polygons component' layername layer round_tol simplify_tol
          = Ok region).
Proof.
  intros Hperm region Hf.
  apply fuse_polygons_Ok in Hf as (ps & Hps & ->).
  unfold shapely_polygons in Hps.
  destruct (mapM_Permutation _ _ _ Hperm ps Hps) as (ps' & Hps' & Hpp).
  assert (Hf' : fuse_polygons component' layername layer round_tol
                              simplify_tol
                = Ok (simplify (unary_union ps') simplify_tol true)).
  { apply fuse_polygons_Ok. exists ps'. split; [exact Hps' | reflexivity]. }
  exists ps, ps'.
  split; [exact Hpp | split; [reflexivity | split; [exact Hf' | split]]].
  - intros p. rewrite !occupies_unary_union.
    apply covered_Permutation. exact Hpp.
  - intros Hsame. rewrite Hsame. exact Hf'.
Qed.

End FusionFacts.

(** ** Processing the layer stack *)

Section CleanupFacts.

Context {C : Type} `{PyFloat C} `{Shapely C}.
Context {Component Selector : Type} `{Layout C Component Selector}.

Variables (component : Component) (round_tol : Z) (simplify_tol : C).

(** The items of the stack whose ["layer"] is not [None]. *)
Let defined (items : list (string * LayerLevel Selector)) :=
  filter (fun item => match layer (snd item) with
                      | Some _ => true
                      | None => false
                      end) items.

(** The calls of [fuse_polygons] a complete run over [items] makes. *)
Let calls_of (items : list (string * LayerLevel Selector)) :=
  flat_map (fun item => match layer (snd item) with
                        | Some sel =>
                            [FuseCall (fst item) sel round_tol simplify_tol]
                        | None => []
                        end) items.

(** [region] is what [fuse_polygons] returns for [item]. *)
Let fused (item : string * LayerLevel Selector) (region : geometry C) :=
  exists sel, layer (snd item) = Some sel
              /\ fuse_polygons component (fst item) sel round_tol
                               simplify_tol = Ok region.

Lemma keys_defined_incl (items : list (string * LayerLevel Selector))
  (k : string) :
  In k (keys (defined items)) -> In k (keys items).
Proof.
  unfold keys. intros Hin. apply in_map_iff in Hin as (item & <- & Hin).
  apply filter_In in Hin as (Hin & _). apply in_map. exact Hin.
Qed.

Lemma NoDup_keys_defined (items : list (string * LayerLevel Selector)) :
  NoDup (keys items) -> NoDup (keys (defined items)).
Proof.
  induction items as [| [k lvl] rest IH]; simpl; intros Hnd;
    [constructor |].
  inversion Hnd as [| ? ? Hnotin Hnd']; subst.
  destruct (layer lvl); simpl; [| apply IH; exact Hnd'].
  constructor; [| apply IH; exact Hnd'].
  intros Hin. apply Hnotin. apply keys_defined_incl. exact Hin.
Qed.

Lemma cleanup_items_shape (items : list (string * LayerLevel Selector))
  (acc out : dict (geometry C)) (calls : list fuse_call) :
  NoDup (keys acc ++ keys items) ->
  cleanup_items component round_tol simplify_tol items acc
  = (calls, Ok out) ->
  calls = calls_of items
  /\ exists regions,
       Forall2 fused (defined items) regions
       /\ out = acc ++ combine (map fst (defined items)) regions.
Proof.
  revert acc calls; induction items as [| [k lvl] rest IH];
    simpl; intros acc calls Hnd Hc.
  - injection Hc as <- <-. split; [reflexivity |].
    exists []. split; [constructor | rewrite app_nil_r; reflexivity].
  - assert (Hrest : NoDup (keys acc ++ keys rest))
      by (eapply NoDup_remove_1; exact Hnd).
    destruct (layer lvl) as [sel |] eqn:Hlvl; simpl.
    + destruct (fuse_polygons component k sel round_tol simplify_tol)
        as [region | e] eqn:Hfuse; [| discriminate Hc].
      destruct (cleanup_items component round_tol simplify_tol rest
                              (Dict.set acc k region))
        as [calls' out'] eqn:Hrec.
      injection Hc as <- ->.
      assert (Hfresh : ~ In k (keys acc)).
      { intros Hin. apply NoDup_remove_2 in Hnd. apply Hnd.
        apply in_or_app; left; exact Hin. }
      rewrite set_fresh in Hrec by exact Hfresh.
      apply IH in Hrec as (-> & regions & Hall & ->).
      * split; [reflexivity |].
        exists (region :: regions). split.
        -- constructor; [| exact Hall]. exists sel. split; assumption.
        -- rewrite <- app_assoc. reflexivity.
      * rewrite keys_app, <- app_assoc. exact Hnd.
    + apply IH; assumption.
Qed.

Lemma calls_count (items : list (string * LayerLevel Selector)) :
  NoDup (keys items) ->
  forall name,
    (~ In name (keys items) ->
     filter (fun c => String.eqb (call_layername c) name) (calls_of items)
     = [])
    /\ (forall level, In (name, level) items ->
        List.length
          (filter (fun c => String.eqb (call_layername c) name)
                  (calls_of items))
        = match layer level with Some _ => 1 | None => 0 end).
Proof.
  induction items as [| [k lvl] rest IH]; simpl; intros Hnd name.
  - split; [reflexivity | contradiction].
  - inversion Hnd as [| ? ? Hnotin Hnd']; subst.
    destruct (IH Hnd' name) as (IHout & IHin).
    rewrite filter_app. split.
    + intros Hname. rewrite IHout by tauto. rewrite app_nil_r.
      destruct (layer lvl); simpl; [| reflexivity].
      destruct (String.eqb_spec k name) as [-> | _]; [| reflexivity].
      exfalso; apply Hname; left; reflexivity.
    + intros level [Heq | Hin].
      * injection Heq as -> ->. rewrite IHout by exact Hnotin.
        rewrite app_nil_r. destruct (layer level); simpl; [| reflexivity].
        rewrite String.eqb_refl. reflexivity.
      * rewrite length_app, (IHin level Hin).
        assert (Hne : k <> name).
        { intros ->. apply Hnotin. unfold keys.
          change name with (fst (name, level)). apply in_map. exact Hin. }
        destruct (layer lvl); simpl; [| reflexivity].
        destruct (String.eqb_spec k name) as [Heq | _];
          [contradiction | reflexivity].
Qed.

Lemma get_absent {V : Type} (d : dict V) (k : string) :
  ~ In k (keys d) -> get d k = None.
Proof.
  induction d as [| [k' v] rest IH]; simpl; intros Hk; [reflexivity |].
  destruct (String.eqb_spec k' k) as [-> | _].
  - exfalso; apply Hk; left; reflexivity.
  - apply IH. intros Hin. apply Hk. right; exact Hin.
Qed.

Context {LayerStack : Type} `{LayerStackProvider LayerStack Selector}.

(** C3. In a run of [cleanup_component] that returns, [fuse_polygons] is
    called for the items of [layerstack.to_dict()] whose ["layer"] is not
    [None], in the order of the stack and once for each; the keys of the
    map returned are the names of these items in the same order, an item
    whose ["layer"] is [None] has no entry, and the entry of any other item
    is what [fuse_polygons] returned for it. *)
Theorem cleanup_component_fuses_defined_layers (layerstack : LayerStack)
  (calls : list fuse_call) (out : dict (geometry C)) :
  NoDup (keys (to_dict layerstack)) ->
  cleanup_component component layerstack round_tol simplify_tol
  = (calls, Ok out) ->
  calls = flat_map
            (fun item =>
               match layer (snd item) with
               | Some sel => [FuseCall (fst item) sel round_tol simplify_tol]
               | None => []
               end) (to_dict layerstack)
  /\ keys out = keys (filter (fun item =>
                                match layer (snd item) with
                                | Some _ => true
                                | None => false
                                end) (to_dict layerstack))
  /\ forall name level, In (name, level) (to_dict layerstack) ->
       match layer level with
       | Some sel =>
           List.length (filter (fun c => String.eqb (call_layername c) name)
                               calls) = 1
           /\ exists region,
                get out name = Some region
                /\ fuse_polygons component name sel round_tol simplify_tol
                   = Ok region
       | None =>
           List.length (filter (fun c => String.eqb (call_layername c) name)
                               calls) = 0
           /\ get out name = None
       end.
Proof.
  intros Hnd Hc. unfold cleanup_component, Dict.items in Hc.
  apply cleanup_items_shape in Hc as (-> & regions & Hall & ->);
    [| exact Hnd].
  fold (calls_of (to_dict layerstack)). fold (defined (to_dict layerstack)).
  simpl app.
  assert (Hkeys : keys (combine (map fst (defined (to_dict layerstack)))
                                regions)
                  = keys (defined (to_dict layerstack))).
  { apply (keys_combine fst fused). exact Hall. }
  split; [reflexivity | split; [exact Hkeys |]].
  intros name level Hin.
  destruct (calls_count (to_dict layerstack) Hnd name) as (_ & Hcount).
  specialize (Hcount level Hin).
  destruct (layer level) as [sel |] eqn:Hlvl; (split; [exact Hcount |]).
  - assert (Hdef : In (name, level) (defined (to_dict layerstack))).
    { apply filter_In. split; [exact Hin |]. simpl. rewrite Hlvl.
      reflexivity. }
    destruct (get_combine fst fused _ _ Hall
                (NoDup_keys_defined _ Hnd) (name, level) Hdef)
      as (region & Hget & sel' & Hsel' & Hfuse).
    simpl in Hget, Hsel', Hfuse. rewrite Hlvl in Hsel'.
    injection Hsel' as <-. exists region. split; assumption.
  - apply get_absent. rewrite Hkeys. intros Hk.
    unfold keys in Hk. apply in_map_iff in Hk as ([n l] & Hn & Hd).
    simpl in Hn; subst n. apply filter_In in Hd as (Hd & Hl).
    simpl in Hl.
    assert (l = level); [| subst l; rewrite Hlvl in Hl; discriminate Hl].
    clear - Hnd Hin Hd. revert Hnd Hin Hd.
    induction (to_dict layerstack) as [| [k v] rest IH]; simpl;
      intros Hnd Hin Hd; [contradiction |].
    inversion Hnd as [| ? ? Hnotin Hnd']; subst.
    destruct Hin as [Heq | Hin], Hd as [Heq' | Hd].
    + congruence.
    + injection Heq as -> ->. exfalso. apply Hnotin.
      change name with (fst (name, l)). apply in_map. exact Hd.
    + injection Heq' as -> ->. exfalso. apply Hnotin.
      change name with (fst (name, level)). apply in_map. exact Hin.
    + apply IH; assumption.
Qed.


(** Every raw polygon of the layers of the stack is accepted by the
    [Polygon] constructor. *)
Let constructible (items : list (string * LayerLevel Selector)) : Prop :=
  Forall (fun item =>
            match layer (snd item) with
            | Some sel =>
                Forall (fun polygon => exists p, new_Polygon polygon = Ok p)
                       (get_polygons (extract component sel))
            | None => True
            end) items.

Lemma cleanup_items_returns (items : list (string * LayerLevel Selector)) :
  constructible items ->
  forall acc, exists calls out,
    cleanup_items component round_tol simplify_tol items acc
    = (calls, Ok out).
Proof.
  induction 1 as [| [k lvl] rest Hitem _ IH]; simpl; intros acc.
  - eexists; eexists; reflexivity.
  - simpl in Hitem. destruct (layer lvl) as [sel |]; [| apply IH].
    unfold fuse_polygons, shapely_polygons.
    destruct (mapM_total
                (fun polygon => p <- new_Polygon polygon ;;
                                Ok (round_coordinates p round_tol))
                (get_polygons (extract component sel))) as (ps & ->).
    + intros polygon Hin. rewrite Forall_forall in Hitem.
      destruct (Hitem polygon Hin) as (p & ->). eexists; reflexivity.
    + simpl.
      destruct (IH (Dict.set acc k
                      (simplify (unary_union ps) simplify_tol true)))
        as (calls & out & ->).
      eexists; eexists; reflexivity.
Qed.

(** C8, as the code has it. [cleanup_component] does not check the layer
    stack and raises nothing of its own: when the [Polygon] constructor
    accepts every raw polygon of the layers of the stack it returns; and for
    a layer whose selector matches no polygon it calls [fuse_polygons] all
    the same and stores the simplified union of no polygon under the name of
    the layer. *)
Theorem cleanup_component_does_not_validate (layerstack : LayerStack) :
  NoDup (keys (to_dict layerstack)) ->
  Forall (fun item =>
            match layer (snd item) with
            | Some sel =>
                Forall (fun polygon => exists p, new_Polygon polygon = Ok p)
                       (get_polygons (extract component sel))
            | None => True
            end) (to_dict layerstack) ->
  exists calls out,
    cleanup_component component layerstack round_tol simplify_tol
    = (calls, Ok out)
    /\ forall name level sel,
         In (name, level) (to_dict layerstack) ->
         layer level = Some sel ->
         get_polygons (extract component sel) = [] ->
         In (FuseCall name sel round_tol simplify_tol) calls
         /\ get out name
            = Some (simplify (unary_union []) simplify_tol true).
Proof.
  intros Hnd Hok.
  destruct (cleanup_items_returns (to_dict layerstack) Hok [])
    as (calls & out & Hrun).
  exists calls, out. split; [exact Hrun |].
  unfold cleanup_component, Dict.items in Hrun.
  destruct (cleanup_items_shape (to_dict layerstack) [] out calls Hnd Hrun)
    as (Hcalls & regions & Hall & Hout).
  intros name level sel Hin Hlvl Hnone. split.
  - rewrite Hcalls. apply in_flat_map. exists (name, level).
    split; [exact Hin |]. simpl. rewrite Hlvl. left; reflexivity.
  - assert (Hdef : In (name, level) (defined (to_dict layerstack))).
    { apply filter_In. split; [exact Hin |]. simpl. rewrite Hlvl.
      reflexivity. }
    destruct (get_combine fst fused _ _ Hall
                (NoDup_keys_defined _ Hnd) (name, level) Hdef)
      as (region & Hget & sel' & Hsel' & Hfuse).
    simpl in Hget, Hsel', Hfuse. rewrite Hlvl in Hsel'.
    injection Hsel' as <-.
    rewrite Hout. simpl app. rewrite Hget. f_equal.
    unfold fuse_polygons, shapely_polygons in Hfuse.
    rewrite Hnone in Hfuse. simpl in Hfuse. injection Hfuse as <-.
    reflexivity.
Qed.

End CleanupFacts.

(** ** The grid implementation satisfies what is assumed *)

Module GridLaws.

Import Grid.
Local Open Scope Z_scope.

Lemma round_half_even_multiple (k m : Z) :
  0 < m -> round_half_even (k * m) m = k * m.
Proof.
  intros Hm. unfold round_half_even.
  rewrite Z.div_mul, Z.mod_mul by lia. cbn zeta.
  replace (2 * 0) with 0 by lia.
  destruct (Z.ltb_spec 0 m); [reflexivity | lia].
Qed.

Lemma round_half_even_is_multiple (x m : Z) :
  exists k, round_half_even x m = k * m.
Proof.
  unfold round_half_even. cbn zeta.
  destruct (2 * (x mod m) <? m); [eexists; reflexivity |].
  destruct (m <? 2 * (x mod m)); [eexists; reflexivity |].
  destruct (Z.even (x / m)); eexists; reflexivity.
Qed.

(** On the grid, [round] returns its own results unchanged. *)
Lemma round_Z_idempotent (x ndigits : Z) :
  round_Z (round_Z x ndigits) ndigits = round_Z x ndigits.
Proof.
  unfold round_Z. destruct (0 <=? ndigits) eqn:Hn; [reflexivity |].
  destruct (round_half_even_is_multiple x (10 ^ (- ndigits))) as (k & ->).
  apply round_half_even_multiple. apply Z.pow_pos_nonneg; lia.
Qed.

Lemma cell_eqb_eq (a b : cell) : cell_eqb a b = true <-> a = b.
Proof.
  destruct a as [x y], b as [x' y']. unfold cell_eqb. simpl.
  rewrite andb_true_iff, !Z.eqb_eq. split.
  - intros [-> ->]. reflexivity.
  - intros Heq. injection Heq as -> ->. split; reflexivity.
Qed.

Lemma existsb_cell_in (p : cell) (cs : list cell) :
  existsb (cell_eqb p) cs = true <-> In p cs.
Proof.
  rewrite existsb_exists. split.
  - intros (c & Hin & Heq). apply cell_eqb_eq in Heq. subst c. exact Hin.
  - intros Hin. exists p. split; [exact Hin | apply cell_eqb_eq; reflexivity].
Qed.

Lemma in_zrange (a b x : Z) : In x (zrange a b) <-> a <= x < b.
Proof.
  unfold zrange. rewrite in_map_iff. split.
  - intros (k & <- & Hk). apply in_seq in Hk. lia.
  - intros Hx. exists (Z.to_nat (x - a)). split; [lia |].
    apply in_seq. lia.
Qed.

Lemma in_box_cells (r : ring Z) (p : cell) :
  In p (box_cells r) <-> in_box r p = true.
Proof.
  destruct p as [x y]. unfold box_cells, in_box, cell. cbn [fst snd].
  rewrite in_prod_iff, !in_zrange, !andb_true_iff, !Z.leb_le, !Z.ltb_lt.
  tauto.
Qed.

Lemma existsb_cells (g : geometry Z) (p : cell) :
  existsb (cell_eqb p) (cells g) = grid_occupies g p.
Proof.
  apply Bool.eq_iff_eq_true. rewrite existsb_cell_in.
  destruct g as [cs | shell holes | lines | polygons]; simpl.
  - split; [contradiction | discriminate].
  - apply in_box_cells.
  - split; [contradiction | discriminate].
  - rewrite in_flat_map, existsb_exists.
    split; intros (q & Hq & Hp); exists q; (split; [exact Hq |]);
      apply in_box_cells; exact Hp.
Qed.

Lemma in_box_unit_square (c p : cell) :
  in_box (unit_square c) p = cell_eqb p c.
Proof.
  destruct c as [i j], p as [x y]. apply Bool.eq_iff_eq_true.
  unfold in_box, cell_eqb, xs, ys, lo, hi. simpl.
  rewrite !andb_true_iff, !Z.leb_le, !Z.ltb_lt, !Z.eqb_eq. lia.
Qed.

Lemma occupies_squares (cs : list cell) (p : cell) :
  grid_occupies (squares cs) p = existsb (cell_eqb p) cs.
Proof.
  unfold squares. simpl.
  induction cs as [| c cs IH]; simpl; [reflexivity |].
  rewrite IH, in_box_unit_square. reflexivity.
Qed.

Lemma grid_covered (gs : list (geometry Z)) (p : cell) :
  existsb (cell_eqb p) (flat_map cells gs)
  = existsb (fun g => grid_occupies g p) gs.
Proof.
  induction gs as [| g gs IH]; simpl; [reflexivity |].
  rewrite existsb_app, IH, existsb_cells. reflexivity.
Qed.

#[export] Instance grid_typing : ShapelyTyping Z.
Proof.
  constructor.
  - intros gs g. simpl. unfold grid_new_MultiPolygon.
    destruct (forallb isinstance_Polygon gs); intros Hg;
      [injection Hg as <-; reflexivity | discriminate Hg].
  - intros gs g. simpl. unfold grid_new_MultiLineString.
    destruct (forallb isinstance_LineString gs); intros Hg;
      [injection Hg as <-; reflexivity | discriminate Hg].
  - intros gs Hgs. simpl. unfold grid_new_MultiPolygon. rewrite Hgs.
    eexists; reflexivity.
  - eexists; reflexivity.
  - intros a b Ha. simpl. unfold grid_difference. rewrite Ha. reflexivity.
Qed.

#[export] Instance grid_regions : ShapelyRegions Z.
Proof.
  constructor; unfold covered;
    cbn [occupies location grid_plane difference unary_union
         new_MultiPolygon new_MultiLineString grid_shapely].
  - intros g gs p Hg.
    destruct g as [cs | shell holes | lines | polygons]; simpl in Hg;
      try discriminate Hg; injection Hg as <-; simpl.
    + induction lines as [| l lines IH]; simpl; [reflexivity | exact IH].
    + induction polygons as [| q polygons IH]; simpl; [reflexivity |].
      rewrite IH. reflexivity.
  - intros gs g p. unfold grid_new_MultiPolygon.
    destruct (forallb isinstance_Polygon gs) eqn:Hall; intros Hg;
      [injection Hg as <- | discriminate Hg]. simpl.
    induction gs as [| h gs IH]; simpl; [reflexivity |].
    simpl in Hall. apply andb_prop in Hall as (Hh & Hall).
    destruct h; try discriminate Hh. simpl. rewrite (IH Hall). reflexivity.
  - intros gs g p. unfold grid_new_MultiLineString.
    destruct (forallb isinstance_LineString gs) eqn:Hall; intros Hg;
      [injection Hg as <- | discriminate Hg]. simpl.
    induction gs as [| h gs IH]; simpl; [reflexivity |].
    simpl in Hall. apply andb_prop in Hall as (Hh & Hall).
    destruct h; try discriminate Hh. simpl. exact (IH Hall).
  - intros a b p. unfold grid_difference.
    destruct (is_area a) eqn:Ha.
    + rewrite occupies_squares, <- (existsb_cells a p).
      apply Bool.eq_iff_eq_true.
      rewrite andb_true_iff, negb_true_iff, !existsb_cell_in, filter_In,
        negb_true_iff.
      reflexivity.
    + destruct a; try discriminate Ha; reflexivity.
  - intros gs p. unfold grid_unary_union.
    rewrite occupies_squares. apply grid_covered.
Qed.

End GridLaws.

(** ** The functions on the grid *)

Import Grid GridLaws.

Section GridRuns.

Local Open Scope Z_scope.

(** The scenarios of the specification. A core of 10 x 10 inside a cladding
    of 20 x 20: the core keeps its 100 cells and the cladding is left with
    300. *)
Example core_inside_clad :
  exists out core clad,
    tile_shapes core_in_clad = Ok out
    /\ get out "core" = Some core /\ get out "clad" = Some clad
    /\ area core = 100%nat /\ area clad = 300%nat.
Proof.
  eexists; eexists; eexists.
  split; [vm_compute; reflexivity |].
  split; [vm_compute; reflexivity |].
  split; [vm_compute; reflexivity |].
  split; vm_compute; reflexivity.
Qed.

(** A core and a cladding on the same square: the cladding is left with
    nothing. *)
Example core_over_clad :
  exists out core clad,
    tile_shapes core_on_clad = Ok out
    /\ get out "core" = Some core /\ get out "clad" = Some clad
    /\ area core = 100%nat /\ area clad = 0%nat.
Proof.
  eexists; eexists; eexists.
  split; [vm_compute; reflexivity |].
  split; [vm_compute; reflexivity |].
  split; [vm_compute; reflexivity |].
  split; vm_compute; reflexivity.
Qed.

(** The whole pipeline on [chip]: fusion of the layers of [stack], then
    tiling. *)
Example pipeline_on_chip :
  exists calls fused out core clad,
    cleanup_component chip stack 2 0 = (calls, Ok fused)
    /\ keys fused = ["core"; "clad"]
    /\ tile_shapes fused = Ok out
    /\ keys out = ["clad"; "core"]
    /\ get out "core" = Some core /\ get out "clad" = Some clad
    /\ area core = 100%nat /\ area clad = 300%nat.
Proof.
  eexists; eexists; eexists; eexists; eexists.
  split; [vm_compute; reflexivity |].
  split; [vm_compute; reflexivity |].
  split; [vm_compute; reflexivity |].
  split; [vm_compute; reflexivity |].
  split; [vm_compute; reflexivity |].
  split; [vm_compute; reflexivity |].
  split; vm_compute; reflexivity.
Qed.

Lemma NoDup_core_in_clad : NoDup (keys core_in_clad).
Proof.
  repeat constructor; simpl; intuition discriminate.
Qed.

Lemma NoDup_stack : NoDup (keys (to_dict stack)).
Proof.
  repeat constructor; simpl; intuition discriminate.
Qed.

Lemma NoDup_stack_unmatched : NoDup (keys (to_dict stack_unmatched)).
Proof.
  repeat constructor; simpl; intuition discriminate.
Qed.

End GridRuns.

(** C5. [round_coordinates] on a triangle with third coordinate 5,
    rounding to 5 digits: the third coordinate of every vertex of the result
    is the rounded [x] of the vertex, where rounding every coordinate leaves
    the triangle as it is. *)
Theorem round_coordinates_third_coordinate_from_x :
  round_coordinates Grid.triangle_xyz 5
  = Polygon [Coord 0%Z 0%Z (Some 0%Z); Coord 4%Z 0%Z (Some 4%Z);
             Coord 4%Z 3%Z (Some 4%Z); Coord 0%Z 0%Z (Some 0%Z)] []
  /\ transform (fun x y z => rounded_coordinate 5 (Coord x y z))
               Grid.triangle_xyz
     = Grid.triangle_xyz
  /\ round_coordinates Grid.triangle_xyz 5
     <> transform (fun x y z => rounded_coordinate 5 (Coord x y z))
                  Grid.triangle_xyz.
Proof.
  split; [reflexivity | split; [reflexivity |]].
  vm_compute. intros Heq. discriminate Heq.
Qed.

(** Against C4: on a layer with one polygon of zero area, the polygon is in
    the list [fuse_polygons] unites. *)
Lemma fuse_polygons_keeps_degenerate_polygon :
  In Grid.sliver (get_polygons (extract Grid.chip_sliver (1, 0)%Z))
  /\ Grid.degenerate Grid.sliver = true
  /\ ~ (exists ps,
          shapely_polygons Grid.chip_sliver (1, 0)%Z 5 = Ok ps
          /\ forall p, new_Polygon Grid.sliver = Ok p ->
                       ~ In (round_coordinates p 5) ps).
Proof.
  split; [left; reflexivity | split; [reflexivity |]].
  intros (ps & Hps & Hout). vm_compute in Hps. injection Hps as <-.
  apply (Hout _ eq_refl). left. reflexivity.
Qed.

(** Against C8: on a stack whose only selector matches no polygon of the
    layout, [cleanup_component] calls [fuse_polygons] and returns a map. *)
Lemma cleanup_component_raises_no_ConfigurationError :
  (exists name level sel,
      In (name, level) (to_dict Grid.stack_unmatched)
      /\ layer level = Some sel
      /\ get_polygons (extract Grid.chip sel) = [])
  /\ cleanup_component Grid.chip Grid.stack_unmatched 2 0%Z
     = ([FuseCall "heater" (47, 0)%Z 2 0%Z],
        Ok [("heater", MultiPolygon [])])
  /\ cleanup_component Grid.chip Grid.stack_unmatched 2 0%Z
     <> ([], Raise "ConfigurationError").
Proof.
  split; [| split; [reflexivity | vm_compute; intros Heq; discriminate Heq]].
  exists "heater", {| layer := Some (47, 0)%Z |}, (47, 0)%Z.
  split; [left; reflexivity | split; reflexivity].
Qed.

(** ** The theorems at the examples *)

(** The cladding of [core_in_clad] keeps its square without the square of the
    core. *)
Lemma tile_is_layer_minus_higher_layers_witness :
  ShapelyTyping Z /\ ShapelyRegions Z /\ NoDup (keys core_in_clad)
  /\ exists out tile,
       tile_shapes core_in_clad = Ok out
       /\ get out "clad" = Some tile
       /\ forall p,
            occupies tile p
            = occupies (rectangle_polygon 0 0 20 20) p
              && negb (covered [rectangle_polygon 0 0 10 10] p).
Proof.
  split; [exact grid_typing | split; [exact grid_regions |]].
  split; [exact NoDup_core_in_clad |].
  destruct (tile_is_layer_minus_higher_layers core_in_clad NoDup_core_in_clad)
    as [Hspec Hreturns].
  destruct Hreturns as (out & Hout);
    [repeat constructor |].
  destruct (Hspec out Hout 1 "clad" (rectangle_polygon 0 0 20 20) eq_refl)
    as (tile & Hget & _ & Hocc).
  exists out, tile. split; [exact Hout | split; [exact Hget | exact Hocc]].
Defined.

(** The tiles of [core_in_clad] do not overlap and cover the two squares. *)
Lemma tiles_partition_occupied_region_witness :
  ShapelyRegions Z /\ NoDup (keys core_in_clad)
  /\ exists out,
       tile_shapes core_in_clad = Ok out
       /\ (forall a b ta tb, a <> b ->
             get out a = Some ta -> get out b = Some tb ->
             forall p, occupies ta p && occupies tb p = false)
       /\ (forall p, covered (values out) p = covered (values core_in_clad) p).
Proof.
  split; [exact grid_regions | split; [exact NoDup_core_in_clad |]].
  eexists. split; [vm_compute; reflexivity |].
  apply (tiles_partition_occupied_region core_in_clad _ NoDup_core_in_clad).
  vm_compute; reflexivity.
Defined.

(** The tiles of [core_in_clad] come cladding first. *)
Lemma tile_shapes_reverses_keys_witness :
  NoDup (keys core_in_clad)
  /\ exists out,
       tile_shapes core_in_clad = Ok out
       /\ keys out = ["clad"; "core"]
       /\ exists t rest, out = ("clad", t) :: rest.
Proof.
  split; [exact NoDup_core_in_clad |].
  destruct (tile_shapes core_in_clad) as [out | e] eqn:Hrun;
    [| vm_compute in Hrun; discriminate Hrun].
  exists out. split; [reflexivity |].
  destruct (tile_shapes_reverses_keys core_in_clad out NoDup_core_in_clad
              Hrun) as [Hkeys Hfirst].
  split; [exact Hkeys |].
  exact (Hfirst [("core", rectangle_polygon 0 0 10 10)] "clad"
                (rectangle_polygon 0 0 20 20) eq_refl).
Defined.

(** The core of [core_in_clad], one polygon, is returned as a
    [MultiPolygon]. *)
Lemma tile_shapes_values_are_multi_shapes_witness :
  ShapelyTyping Z /\ NoDup (keys core_in_clad)
  /\ exists out t,
       tile_shapes core_in_clad = Ok out
       /\ get out "core" = Some t
       /\ geom_type t = "MultiPolygon".
Proof.
  split; [exact grid_typing | split; [exact NoDup_core_in_clad |]].
  destruct (tile_shapes core_in_clad) as [out | e] eqn:Hout;
    [| vm_compute in Hout; discriminate Hout].
  destruct (tile_shapes_values_are_multi_shapes core_in_clad out
              NoDup_core_in_clad Hout) as [_ Hlayer].
  destruct (Hlayer 0%nat "core" (rectangle_polygon 0 0 10 10) eq_refl)
    as (t & Hget & Htype).
  exists out, t. split; [reflexivity | split; [exact Hget | exact Htype]].
Defined.

(** On [chip] with [stack] the core and the cladding are fused, in this
    order, and the substrate is left out. *)
Lemma cleanup_component_fuses_defined_layers_witness :
  NoDup (keys (to_dict stack))
  /\ exists calls out,
       cleanup_component chip stack 2 0%Z = (calls, Ok out)
       /\ calls = [FuseCall "core" (1, 0)%Z 2 0%Z;
                   FuseCall "clad" (2, 0)%Z 2 0%Z]
       /\ keys out = ["core"; "clad"].
Proof.
  split; [exact NoDup_stack |].
  destruct (cleanup_component chip stack 2 0%Z) as [calls [out | e]] eqn:Hrun;
    [| vm_compute in Hrun; discriminate Hrun].
  exists calls, out. split; [reflexivity |].
  destruct (cleanup_component_fuses_defined_layers chip 2 0%Z stack calls out
              NoDup_stack Hrun) as (Hcalls & Hkeys & _).
  split; [exact Hcalls | exact Hkeys].
Defined.

(** The two overlapping squares, fused in both orders. *)
Lemma fuse_polygons_order_independent_witness :
  ShapelyRegions Z
  /\ Permutation (get_polygons (extract two_squares (1, 0)%Z))
                 (get_polygons (extract two_squares_swapped (1, 0)%Z))
  /\ exists region ps ps',
       fuse_polygons two_squares "core" (1, 0)%Z 5 0%Z = Ok region
       /\ Permutation ps ps'
       /\ region = simplify (unary_union ps) 0%Z true
       /\ fuse_polygons two_squares_swapped "core" (1, 0)%Z 5 0%Z
          = Ok (simplify (unary_union ps') 0%Z true)
       /\ forall p, occupies (unary_union ps) p = occupies (unary_union ps') p.
Proof.
  assert (Hswap : Permutation
                    (get_polygons (extract two_squares (1, 0)%Z))
                    (get_polygons (extract two_squares_swapped (1, 0)%Z)))
    by apply perm_swap.
  split; [exact grid_regions |].
  split; [exact Hswap |].
  eexists.
  assert (Hrun : fuse_polygons two_squares "core" (1, 0)%Z 5 0%Z
                 = Ok (grid_unary_union
                         [rectangle_polygon 0 0 2 2;
                          rectangle_polygon 1 1 3 3]))
    by reflexivity.
  destruct (fuse_polygons_order_independent two_squares two_squares_swapped
              "core" (1, 0)%Z 5 0%Z Hswap _ Hrun)
    as (ps & ps' & Hperm & Hregion & Hrun' & Hocc & _).
  exists ps, ps'.
  split; [exact Hrun | split; [exact Hperm | split; [exact Hregion |]]].
  split; [exact Hrun' | exact Hocc].
Defined.

(** Rounding [path_xy] to tens, twice. *)
Lemma round_coordinates_idempotent_witness :
  (forall x n : Z, round (round x n) n = round x n)
  /\ round_coordinates (round_coordinates path_xy (-1)) (-1)
     = round_coordinates path_xy (-1).
Proof.
  split; [exact round_Z_idempotent |].
  exact (round_coordinates_idempotent round_Z_idempotent path_xy (-1)).
Defined.

(** On [chip] the heater layer of [stack_unmatched] has no polygon and is
    fused all the same. *)
Lemma cleanup_component_does_not_validate_witness :
  NoDup (keys (to_dict stack_unmatched))
  /\ Forall (fun item =>
               match layer (snd item) with
               | Some sel =>
                   Forall (fun polygon => exists p, new_Polygon polygon = Ok p)
                          (get_polygons (extract chip sel))
               | None => True
               end) (to_dict stack_unmatched)
  /\ exists calls out,
       cleanup_component chip stack_unmatched 2 0%Z = (calls, Ok out)
       /\ In (FuseCall "heater" (47, 0)%Z 2 0%Z) calls
       /\ get out "heater" = Some (simplify (unary_union []) 0%Z true).
Proof.
  assert (Hok : Forall (fun item =>
               match layer (snd item) with
               | Some sel =>
                   Forall (fun polygon => exists p, new_Polygon polygon = Ok p)
                          (get_polygons (extract chip sel))
               | None => True
               end) (to_dict stack_unmatched))
    by (repeat constructor).
  split; [exact NoDup_stack_unmatched | split; [exact Hok |]].
  destruct (cleanup_component_does_not_validate chip 2 0%Z stack_unmatched
              NoDup_stack_unmatched Hok) as (calls & out & Hrun & Hitems).
  exists calls, out. split; [exact Hrun |].
  exact (Hitems "heater" {| layer := Some (47, 0)%Z |} (47, 0)%Z
                (or_introl eq_refl) eq_refl eq_refl).
Defined.

(** * Further properties of the module *)

Import GridCases.

(** ** The generators *)

(** X1. [to_polygons], run to exhaustion, raises [AttributeError] exactly
    when one of the geometries is a [LineString] (neither a [Polygon] nor an
    object with [geoms]); otherwise it yields every [Polygon] as it is and the
    parts of every other geometry, in order, without looking at the class of
    the parts. *)
Theorem to_polygons_flattens {C : Type} (geometries : list (geometry C)) :
  to_polygons geometries
  = if existsb isinstance_LineString geometries
    then Raise "AttributeError"
    else Ok (flat_map geoms_or_self geometries).
Proof.
  induction geometries as [| g rest IH]; [reflexivity |].
  simpl. rewrite IH.
  destruct g as [cs | shell holes | lines | polygons]; simpl;
    destruct (existsb isinstance_LineString rest); reflexivity.
Qed.

(** X2. [to_lines], run to exhaustion, raises [AttributeError] exactly when
    one of the geometries is a [Polygon]; otherwise it yields every
    [LineString] as it is and the parts of every other geometry, in order. *)
Theorem to_lines_flattens {C : Type} (geometries : list (geometry C)) :
  to_lines geometries
  = if existsb isinstance_Polygon geometries
    then Raise "AttributeError"
    else Ok (flat_map geoms_or_self geometries).
Proof.
  induction geometries as [| g rest IH]; [reflexivity |].
  simpl. rewrite IH.
  destruct g as [cs | shell holes | lines | polygons]; simpl;
    destruct (existsb isinstance_Polygon rest); reflexivity.
Qed.

Lemma to_polygons_of_polygons {C : Type} (ps : list (geometry C)) :
  forallb isinstance_Polygon ps = true -> to_polygons ps = Ok ps.
Proof.
  induction ps as [| g rest IH]; simpl; intros Hall; [reflexivity |].
  apply andb_prop in Hall as (Hg & Hall). rewrite Hg, (IH Hall).
  reflexivity.
Qed.

(** X3. On areas ([Polygon] or [MultiPolygon]) [to_polygons] returns, what it
    yields are polygons only, and running it again on what it yielded changes
    nothing. *)
Theorem to_polygons_areas_flat {C : Type} (geometries : list (geometry C)) :
  Forall (fun g => is_area g = true) geometries ->
  exists ps,
    to_polygons geometries = Ok ps
    /\ forallb isinstance_Polygon ps = true
    /\ to_polygons ps = Ok ps.
Proof.
  intros Hall.
  destruct (to_polygons_areas geometries Hall) as (ps & Hps & Hpoly).
  exists ps. split; [exact Hps | split; [exact Hpoly |]].
  apply to_polygons_of_polygons. exact Hpoly.
Qed.

(** ** Rounding, coordinate by coordinate *)

Section RoundingCoordinates.

Context {C : Type} `{PyFloat C}.

Lemma coords_of_transform (func : C -> C -> option C -> coordinate C)
  (g : geometry C) :
  coords_of (transform func g) = transform_coords func (coords_of g).
Proof.
  unfold transform_coords.
  destruct g as [cs | shell holes | lines | polygons]; simpl.
  - reflexivity.
  - rewrite map_app, concat_map. reflexivity.
  - rewrite concat_map. reflexivity.
  - induction polygons as [| [shell holes] rest IH]; simpl; [reflexivity |].
    rewrite IH, !map_app, concat_map. reflexivity.
Qed.

Lemma transform_coords_ext_in
  (func func' : C -> C -> option C -> coordinate C) (cs : list (coordinate C)) :
  (forall c, In c cs ->
     func (coord_x c) (coord_y c) (coord_z c)
     = func' (coord_x c) (coord_y c) (coord_z c)) ->
  transform_coords func cs = transform_coords func' cs.
Proof. intros Hf. apply map_ext_in. exact Hf. Qed.

Lemma transform_rings_ext_in
  (func func' : C -> C -> option C -> coordinate C)
  (rings : list (list (coordinate C))) :
  (forall c, In c (List.concat rings) ->
     func (coord_x c) (coord_y c) (coord_z c)
     = func' (coord_x c) (coord_y c) (coord_z c)) ->
  map (transform_coords func) rings = map (transform_coords func') rings.
Proof.
  intros Hf. apply map_ext_in. intros r Hr.
  apply transform_coords_ext_in. intros c Hc. apply Hf.
  apply in_concat. exists r. split; assumption.
Qed.

(** Two functions that agree on the coordinate tuples of a geometry transform
    it to the same geometry. *)
Lemma transform_ext_in (func func' : C -> C -> option C -> coordinate C)
  (g : geometry C) :
  (forall c, In c (coords_of g) ->
     func (coord_x c) (coord_y c) (coord_z c)
     = func' (coord_x c) (coord_y c) (coord_z c)) ->
  transform func g = transform func' g.
Proof.
  destruct g as [cs | shell holes | lines | polygons]; simpl; intros Hf.
  - f_equal. apply transform_coords_ext_in. exact Hf.
  - f_equal.
    + apply transform_coords_ext_in. intros c Hc. apply Hf.
      apply in_or_app. left; exact Hc.
    + apply transform_rings_ext_in. intros c Hc. apply Hf.
      apply in_or_app. right; exact Hc.
  - f_equal. apply transform_rings_ext_in. exact Hf.
  - f_equal. apply map_ext_in. intros [shell holes] Hq. simpl.
    assert (Hin : forall c, In c (shell ++ List.concat holes) ->
                            In c (flat_map
                                    (fun p => fst p ++ List.concat (snd p))
                                    polygons)).
    { intros c Hc. apply in_flat_map. exists (shell, holes).
      split; [exact Hq | exact Hc]. }
    f_equal.
    + apply transform_coords_ext_in. intros c Hc. apply Hf, Hin.
      apply in_or_app. left; exact Hc.
    + apply transform_rings_ext_in. intros c Hc. apply Hf, Hin.
      apply in_or_app. right; exact Hc.
Qed.

Lemma transform_coords_same (cs : list (coordinate C)) :
  transform_coords (fun x y z => Coord x y z) cs = cs.
Proof.
  unfold transform_coords. rewrite <- (map_id cs) at 2.
  apply map_ext. intros [x y z]. reflexivity.
Qed.

Lemma transform_same (g : geometry C) :
  transform (fun x y z => Coord x y z) g = g.
Proof.
  assert (Hrings : forall rings : list (list (coordinate C)),
             map (transform_coords (fun x y z => Coord x y z)) rings = rings).
  { intros rings. rewrite <- (map_id rings) at 2.
    apply map_ext. apply transform_coords_same. }
  destruct g as [cs | shell holes | lines | polygons]; simpl.
  - rewrite transform_coords_same. reflexivity.
  - rewrite transform_coords_same, Hrings. reflexivity.
  - rewrite Hrings. reflexivity.
  - f_equal. rewrite <- (map_id polygons) at 2.
    apply map_ext. intros [shell holes]. simpl.
    rewrite transform_coords_same, Hrings. reflexivity.
Qed.

(** X4. [round_coordinates] returns a geometry of the class of its argument,
    and the parts of the rounded geometry are the rounded parts of the
    argument, in order. *)
Theorem round_coordinates_keeps_class_and_parts (geom : geometry C)
  (ndigits : Z) :
  geom_type (round_coordinates geom ndigits) = geom_type geom
  /\ geoms (round_coordinates geom ndigits)
     = option_map (map (fun part => round_coordinates part ndigits))
                  (geoms geom).
Proof.
  unfold round_coordinates.
  destruct geom as [cs | shell holes | lines | polygons]; simpl;
    (split; [reflexivity |]); try reflexivity.
  - rewrite !map_map. reflexivity.
  - rewrite !map_map. reflexivity.
Qed.

(** X5. [round_coordinates] on a polygon whose shell and holes are closed
    rings returns a polygon whose shell and holes are closed rings, with as
    many holes and as many vertices on every ring. *)
Theorem round_coordinates_keeps_rings (shell : ring C)
  (holes : list (ring C)) (ndigits : Z) :
  closed shell ->
  Forall closed holes ->
  exists shell' holes',
    round_coordinates (Polygon shell holes) ndigits = Polygon shell' holes'
    /\ closed shell' /\ Forall closed holes'
    /\ List.length shell' = List.length shell
    /\ map (@List.length (coordinate C)) holes'
       = map (@List.length (coordinate C)) holes.
Proof.
  intros Hshell Hholes.
  exists (transform_coords (_round_coords ndigits) shell),
         (map (transform_coords (_round_coords ndigits)) holes).
  split; [reflexivity |].
  split; [apply round_ring_closed; exact Hshell |].
  split; [| split].
  - apply Forall_map. eapply Forall_impl; [| exact Hholes].
    intros r Hr. apply round_ring_closed. exact Hr.
  - apply round_ring_length.
  - rewrite map_map. apply map_ext. intros r. apply round_ring_length.
Qed.

(** X6. On a geometry without third coordinates [round_coordinates] rounds
    every coordinate of every vertex: it is the transformation of the
    geometry by the rounding of coordinate tuples. *)
Theorem round_coordinates_rounds_xy (geom : geometry C) (ndigits : Z) :
  Forall (fun c => coord_z c = None) (coords_of geom) ->
  round_coordinates geom ndigits
  = transform (fun x y z => rounded_coordinate ndigits (Coord x y z)) geom.
Proof.
  intros Hflat. unfold round_coordinates. apply transform_ext_in.
  intros c Hc. rewrite Forall_forall in Hflat. rewrite (Hflat c Hc).
  reflexivity.
Qed.

(** X7. In the geometry [round_coordinates] returns, the first two
    coordinates of every vertex are the rounded coordinates of the vertex of
    the argument at the same place, and a third coordinate is kept absent or
    is the rounding of the first coordinate of the result, whatever it was
    in the argument. *)
Theorem round_coordinates_vertices (geom : geometry C) (ndigits : Z) :
  Forall2 (fun c c' =>
             coord_x c' = round (coord_x c) ndigits
             /\ coord_y c' = round (coord_y c) ndigits
             /\ coord_z c'
                = match coord_z c with
                  | Some _ => Some (round (coord_x c') ndigits)
                  | None => None
                  end)
          (coords_of geom) (coords_of (round_coordinates geom ndigits)).
Proof.
  unfold round_coordinates. rewrite coords_of_transform.
  unfold transform_coords.
  induction (coords_of geom) as [| c cs IH]; simpl; constructor;
    [| exact IH].
  destruct c as [x y [z |]]; simpl; repeat split; reflexivity.
Qed.

(** X8. A geometry without third coordinates whose coordinates [round]
    leaves unchanged at [ndigits] digits is returned unchanged by
    [round_coordinates]. *)
Theorem round_coordinates_fixed (geom : geometry C) (ndigits : Z) :
  Forall (fun c => coord_z c = None
                   /\ round (coord_x c) ndigits = coord_x c
                   /\ round (coord_y c) ndigits = coord_y c)
         (coords_of geom) ->
  round_coordinates geom ndigits = geom.
Proof.
  intros Hfixed. unfold round_coordinates.
  rewrite <- (transform_same geom) at 2. apply transform_ext_in.
  intros [x y z] Hc. rewrite Forall_forall in Hfixed.
  destruct (Hfixed _ Hc) as (Hz & Hx & Hy). simpl in Hz, Hx, Hy.
  subst z. unfold _round_coords. cbn. rewrite Hx, Hy. reflexivity.
Qed.

End RoundingCoordinates.

(** ** Fusion: refused polygons and repeated polygons *)

Lemma mapM_first_Raise {A B : Type} (f : A -> result B) (pre post : list A)
  (a : A) (e : string) :
  Forall (fun x => exists b, f x = Ok b) pre ->
  f a = Raise e ->
  mapM f (pre ++ a :: post) = Raise e.
Proof.
  induction 1 as [| x pre (b & Hx) _ IH]; simpl; intros Ha.
  - rewrite Ha. reflexivity.
  - rewrite Hx. simpl. rewrite (IH Ha). reflexivity.
Qed.

Lemma mapM_In {A B : Type} (f : A -> result B) (l : list A) (bs : list B) :
  mapM f l = Ok bs ->
  forall b, In b bs <-> exists a, In a l /\ f a = Ok b.
Proof.
  intros Hm. apply mapM_Ok in Hm.
  induction Hm as [| a b' l bs Hab _ IH]; intros b; simpl.
  - split; [contradiction | intros (a & Hin & _); contradiction].
  - rewrite IH. split.
    + intros [<- | (a0 & Hin & Hf)].
      * exists a. split; [left; reflexivity | exact Hab].
      * exists a0. split; [right; exact Hin | exact Hf].
    + intros (a0 & [<- | Hin] & Hf).
      * left. congruence.
      * right. exists a0. split; assumption.
Qed.

Lemma mapM_Ok_each {A B : Type} (f : A -> result B) (l : list A)
  (bs : list B) :
  mapM f l = Ok bs -> forall a, In a l -> exists b, f a = Ok b.
Proof.
  intros Hm. apply mapM_Ok in Hm.
  induction Hm as [| x b l bs Hxb _ IH]; intros a Hin; [contradiction |].
  destruct Hin as [<- | Hin]; [exists b; exact Hxb | exact (IH a Hin)].
Qed.

Section FusionCases.

Context {C : Type} `{PyFloat C} `{Shapely C}.
Context {Component Selector : Type} `{Layout C Component Selector}.

(** X9. When the [Polygon] constructor refuses a raw polygon of the layer
    and has accepted the ones listed before it, [fuse_polygons] raises the
    exception of the constructor, whatever polygons follow. *)
Theorem fuse_polygons_raises_first_refusal (component : Component)
  (layername : string) (layer : Selector) (round_tol : Z) (simplify_tol : C)
  (before after : list (list (C * C))) (polygon : list (C * C))
  (e : string) :
  get_polygons (extract component layer) = before ++ polygon :: after ->
  Forall (fun raw => exists p, new_Polygon raw = Ok p) before ->
  new_Polygon polygon = Raise e ->
  fuse_polygons component layername layer round_tol simplify_tol = Raise e.
Proof.
  intros Hlist Hbefore Hrefused. unfold fuse_polygons, shapely_polygons.
  rewrite Hlist.
  rewrite (mapM_first_Raise
             (fun raw => p <- new_Polygon raw ;;
                         Ok (round_coordinates p round_tol))
             before after polygon e).
  - reflexivity.
  - eapply Forall_impl; [| exact Hbefore]. cbv beta.
    intros raw (p & ->). eexists; reflexivity.
  - rewrite Hrefused. reflexivity.
Qed.

(** X10. [fuse_polygons] returns a region exactly when the [Polygon]
    constructor accepts every raw polygon of the layer; a layer without
    polygons is among these. *)
Theorem fuse_polygons_returns_iff_accepted (component : Component)
  (layername : string) (layer : Selector) (round_tol : Z)
  (simplify_tol : C) :
  (exists region,
      fuse_polygons component layername layer round_tol simplify_tol
      = Ok region)
  <-> Forall (fun raw => exists p, new_Polygon raw = Ok p)
             (get_polygons (extract component layer)).
Proof.
  split.
  - intros (region & Hf). apply fuse_polygons_Ok in Hf as (ps & Hps & _).
    unfold shapely_polygons in Hps. apply mapM_Ok in Hps.
    induction Hps as [| raw g l ps Hraw _ IH]; constructor; [| exact IH].
    apply bind_Ok in Hraw as (p & Hp & _). exists p. exact Hp.
  - intros Hall. unfold fuse_polygons, shapely_polygons.
    destruct (mapM_total
                (fun raw => p <- new_Polygon raw ;;
                            Ok (round_coordinates p round_tol))
                (get_polygons (extract component layer))) as (ps & ->).
    + intros raw Hin. rewrite Forall_forall in Hall.
      destruct (Hall raw Hin) as (p & ->). eexists; reflexivity.
    + eexists; reflexivity.
Qed.

Context `{Plane C} {regions : ShapelyRegions C}.

(** X11. When two layouts have the same raw polygons on a layer, however
    often and in whatever order each is listed, [fuse_polygons] returns on
    the one when it returns on the other, the two unions are taken over the
    same rounded polygons and have the same region, and the results are their
    simplifications with the same tolerance. *)
Theorem fuse_polygons_ignores_repetition (component component' : Component)
  (layername : string) (layer : Selector) (round_tol : Z)
  (simplify_tol : C) :
  (forall raw,
      In raw (get_polygons (extract component layer))
      <-> In raw (get_polygons (extract component' layer))) ->
  forall region,
    fuse_polygons component layername layer round_tol simplify_tol
    = Ok region ->
    exists ps ps',
      (forall g, In g ps <-> In g ps')
      /\ region = simplify (unary_union ps) simplify_tol true
      /\ fuse_polygons component' layername layer round_tol simplify_tol
         = Ok (simplify (unary_union ps') simplify_tol true)
      /\ forall p,
           occupies (unary_union ps) p = occupies (unary_union ps') p.
Proof.
  intros Hsame region Hf.
  apply fuse_polygons_Ok in Hf as (ps & Hps & ->).
  unfold shapely_polygons in Hps.
  pose proof (mapM_In _ _ _ Hps) as Hin.
  destruct (mapM_total
              (fun raw => p <- new_Polygon raw ;;
                          Ok (round_coordinates p round_tol))
              (get_polygons (extract component' layer))) as (ps' & Hps').
  { intros raw Hraw. apply Hsame in Hraw.
    exact (mapM_Ok_each _ _ _ Hps raw Hraw). }
  pose proof (mapM_In _ _ _ Hps') as Hin'.
  assert (Hsets : forall g, In g ps <-> In g ps').
  { intros g. rewrite Hin, Hin'.
    split; intros (raw & Hraw & Hg); exists raw; (split; [| exact Hg]);
      apply Hsame; exact Hraw. }
  exists ps, ps'. split; [exact Hsets | split; [reflexivity | split]].
  - apply fuse_polygons_Ok. exists ps'. split; [exact Hps' | reflexivity].
  - intros p. rewrite !occupies_unary_union.
    apply Bool.eq_iff_eq_true. rewrite !covered_true.
    split; intros (g & Hg & Hocc); exists g; (split; [| exact Hocc]);
      apply Hsets; exact Hg.
Qed.

End FusionCases.

(** ** Processing the layer stack: failures, null layers, and tiling *)

Section CleanupCases.

Context {C : Type} `{PyFloat C} `{Shapely C}.
Context {Component Selector : Type} `{Layout C Component Selector}.

Variables (component : Component) (round_tol : Z) (simplify_tol : C).

Lemma cleanup_items_app (before rest : list (string * LayerLevel Selector)) :
  Forall (fun item =>
            match layer (snd item) with
            | Some sel =>
                exists region,
                  fuse_polygons component (fst item) sel round_tol
                                simplify_tol = Ok region
            | None => True
            end) before ->
  forall acc, exists acc',
    cleanup_items component round_tol simplify_tol (before ++ rest) acc
    = (flat_map (fun item =>
                   match layer (snd item) with
                   | Some sel =>
                       [FuseCall (fst item) sel round_tol simplify_tol]
                   | None => []
                   end) before
       ++ fst (cleanup_items component round_tol simplify_tol rest acc'),
       snd (cleanup_items component round_tol simplify_tol rest acc')).
Proof.
  induction 1 as [| [k lvl] before Hitem _ IH]; intros acc.
  - exists acc. simpl.
    destruct (cleanup_items component round_tol simplify_tol rest acc).
    reflexivity.
  - simpl in Hitem |- *. destruct (layer lvl) as [sel |].
    + destruct Hitem as (region & ->).
      destruct (IH (Dict.set acc k region)) as (acc' & ->).
      exists acc'. reflexivity.
    + apply IH.
Qed.

Lemma cleanup_items_filter (items : list (string * LayerLevel Selector))
  (acc : dict (geometry C)) :
  cleanup_items component round_tol simplify_tol
    (filter (fun item => match layer (snd item) with
                         | Some _ => true
                         | None => false
                         end) items) acc
  = cleanup_items component round_tol simplify_tol items acc.
Proof.
  revert acc. induction items as [| [k lvl] rest IH]; intros acc;
    [reflexivity |].
  simpl. destruct (layer lvl) as [sel |] eqn:Hlvl; [| apply IH].
  simpl. rewrite Hlvl.
  destruct (fuse_polygons component k sel round_tol simplify_tol);
    [| reflexivity].
  rewrite IH. reflexivity.
Qed.

Context {LayerStack : Type} `{LayerStackProvider LayerStack Selector}.

(** X12. When [fuse_polygons] raises on a layer of the stack and has returned
    on the layers before it, [cleanup_component] raises the same exception
    and returns no map; [fuse_polygons] has then been called for the layers
    before and for that layer, and for no layer after it. *)
Theorem cleanup_component_stops_at_failure (layerstack : LayerStack)
  (before after : list (string * LayerLevel Selector)) (name : string)
  (level : LayerLevel Selector) (sel : Selector) (e : string) :
  to_dict layerstack = before ++ (name, level) :: after ->
  layer level = Some sel ->
  Forall (fun item =>
            match layer (snd item) with
            | Some sel' =>
                exists region,
                  fuse_polygons component (fst item) sel' round_tol
                                simplify_tol = Ok region
            | None => True
            end) before ->
  fuse_polygons component name sel round_tol simplify_tol = Raise e ->
  cleanup_component component layerstack round_tol simplify_tol
  = (flat_map (fun item =>
                 match layer (snd item) with
                 | Some sel' =>
                     [FuseCall (fst item) sel' round_tol simplify_tol]
                 | None => []
                 end) before
     ++ [FuseCall name sel round_tol simplify_tol],
     Raise e).
Proof.
  intros Hlist Hlvl Hbefore Hfuse. unfold cleanup_component, Dict.items.
  rewrite Hlist.
  destruct (cleanup_items_app before ((name, level) :: after) Hbefore [])
    as (acc' & ->).
  simpl. rewrite Hlvl, Hfuse. reflexivity.
Qed.

(** X13. Layers whose ["layer"] is [None] do not count: on a stack and on the
    stack without these layers [cleanup_component] makes the same calls and
    has the same outcome. *)
Theorem cleanup_component_ignores_null_layers
  (layerstack layerstack' : LayerStack) :
  to_dict layerstack'
  = filter (fun item => match layer (snd item) with
                        | Some _ => true
                        | None => false
                        end) (to_dict layerstack) ->
  cleanup_component component layerstack' round_tol simplify_tol
  = cleanup_component component layerstack round_tol simplify_tol.
Proof.
  intros Hfilter. unfold cleanup_component, Dict.items.
  rewrite Hfilter. apply cleanup_items_filter.
Qed.

(** X14. The map [cleanup_component] returns has distinct keys, and
    [tile_shapes] applied to it returns, when it returns, a map whose keys
    are the names of the layers of the stack with a ["layer"], from the last
    one to the first. *)
Theorem cleanup_then_tile_keys (layerstack : LayerStack)
  (calls : list fuse_call) (fused : dict (geometry C)) :
  NoDup (keys (to_dict layerstack)) ->
  cleanup_component component layerstack round_tol simplify_tol
  = (calls, Ok fused) ->
  NoDup (keys fused)
  /\ forall out,
       tile_shapes fused = Ok out ->
       keys out
       = rev (keys (filter (fun item => match layer (snd item) with
                                        | Some _ => true
                                        | None => false
                                        end) (to_dict layerstack)))
       /\ forall name,
            In name (keys out)
            <-> exists level sel,
                  In (name, level) (to_dict layerstack)
                  /\ layer level = Some sel.
Proof.
  intros Hnd Hrun. unfold cleanup_component, Dict.items in Hrun.
  destruct (cleanup_items_shape component round_tol simplify_tol
              (to_dict layerstack) [] fused calls Hnd Hrun)
    as (_ & regions & Hall & ->).
  simpl app.
  pose proof (keys_combine fst _ _ _ Hall) as Hkeys.
  assert (Hdistinct : NoDup (keys (combine
            (map fst (filter (fun item : string * LayerLevel Selector =>
                                match layer (snd item) with
                                | Some _ => true
                                | None => false
                                end) (to_dict layerstack))) regions))).
  { rewrite Hkeys. apply NoDup_keys_defined. exact Hnd. }
  split; [exact Hdistinct |].
  intros out Hout.
  pose proof (tile_shapes_keys _ out Hdistinct Hout) as Hout_keys.
  rewrite Hkeys in Hout_keys. split; [exact Hout_keys |].
  intros name. rewrite Hout_keys, <- in_rev. unfold keys.
  rewrite in_map_iff. split.
  - intros ([n level] & Hn & Hin). simpl in Hn. subst n.
    apply filter_In in Hin as (Hin & Hdef). simpl in Hdef.
    destruct (layer level) as [sel |] eqn:Hlvl; [| discriminate Hdef].
    exists level, sel. split; [exact Hin | exact Hlvl].
  - intros (level & sel & Hin & Hlvl). exists (name, level).
    split; [reflexivity |]. apply filter_In. split; [exact Hin |].
    simpl. rewrite Hlvl. reflexivity.
Qed.

End CleanupCases.

(** ** Tiling: owners, repeated tiling, added layers, failures *)

Lemma get_nth_error {V : Type} (d : dict V) (j : nat) (k : string) (v : V) :
  NoDup (keys d) -> nth_error d j = Some (k, v) -> get d k = Some v.
Proof.
  revert j; induction d as [| [k' v'] rest IH]; intros j Hnd Hj.
  - destruct j; discriminate Hj.
  - simpl in Hnd. inversion Hnd as [| ? ? Hnotin Hnd']; subst.
    destruct j as [| j]; simpl in Hj |- *.
    + injection Hj as -> ->. rewrite String.eqb_refl. reflexivity.
    + destruct (String.eqb_spec k' k) as [-> | _]; [| exact (IH j Hnd' Hj)].
      exfalso. apply Hnotin. apply nth_error_In in Hj.
      unfold keys. change k with (fst (k, v)). apply in_map. exact Hj.
Qed.



Section TilingCases.

Context {C : Type} `{Shapely C}.


(** X16. Layers added after the layers of [shapes_dict] do not change the
    tiles of the layers that were there: [tile_shapes] stores the same
    geometry for them with and without the added layers. *)
Theorem tile_shapes_unchanged_by_lower_layers
  (d added out out' : dict (geometry C)) :
  NoDup (keys (d ++ added)) ->
  tile_shapes d = Ok out ->
  tile_shapes (d ++ added) = Ok out' ->
  forall name, In name (keys d) -> get out' name = get out name.
Proof.
  intros Hnd Hout Hout' name Hname.
  assert (Hnd_d : NoDup (keys d)).
  { rewrite keys_app in Hnd. apply NoDup_app_remove_r in Hnd. exact Hnd. }
  unfold keys in Hname. apply in_map_iff in Hname as ([n R] & Hn & Hin).
  simpl in Hn. subst n. apply In_nth_error in Hin as (i & Hi).
  assert (Hlt : i < List.length d).
  { apply nth_error_Some. rewrite Hi. discriminate. }
  destruct (tile_shapes_get d out Hnd_d Hout i name R Hi) as (t & -> & Hp).
  destruct (tile_shapes_get (d ++ added) out' Hnd Hout' i name R)
    as (t' & -> & Hp').
  { rewrite nth_error_app1 by exact Hlt. exact Hi. }
  rewrite tiled_lower_shapes_parts in Hp, Hp'.
  unfold values in Hp'. rewrite map_app, firstn_app, length_map in Hp'.
  replace (i - List.length d) with 0 in Hp' by lia.
  rewrite firstn_0, app_nil_r in Hp'. fold (values d) in Hp'.
  rewrite Hp in Hp'. injection Hp' as ->. reflexivity.
Qed.

Context `{Plane C} {regions : ShapelyRegions C}.

(** The tiles of two different layers have no location in common. *)
Lemma tiles_apart (d out : dict (geometry C)) (a b : string)
  (ta tb : geometry C) (p : location) :
  NoDup (keys d) -> tile_shapes d = Ok out ->
  a <> b -> get out a = Some ta -> get out b = Some tb ->
  occupies ta p = true -> occupies tb p = false.
Proof.
  intros Hnd Hout Hab Ha Hb Hocc.
  destruct (tile_shapes_get_inv d out Hnd Hout a ta Ha) as (i & Ra & Hi & Hta).
  destruct (tile_shapes_get_inv d out Hnd Hout b tb Hb) as (j & Rb & Hj & Htb).
  rewrite (occupies_tile d i Ra ta p Hta) in Hocc.
  apply andb_prop in Hocc as (HRa & Hfree). apply negb_true_iff in Hfree.
  rewrite (occupies_tile d j Rb tb p Htb).
  destruct (Nat.lt_trichotomy i j) as [Hij | [Heq | Hji]].
  - assert (Hc : covered (firstn j (values d)) p = true).
    { apply covered_true. exists Ra. split; [| exact HRa].
      apply in_firstn_nth. exists i. split; [exact Hij |].
      apply nth_error_values. exists a. exact Hi. }
    rewrite Hc. apply andb_false_r.
  - subst j. rewrite Hi in Hj. injection Hj as Heq _. contradiction.
  - destruct (occupies Rb p) eqn:HRb; [| reflexivity].
    assert (Hc : covered (firstn i (values d)) p = true).
    { apply covered_true. exists Rb. split; [| exact HRb].
      apply in_firstn_nth. exists j. split; [exact Hji |].
      apply nth_error_values. exists b. exact Hj. }
    rewrite Hc in Hfree. discriminate Hfree.
Qed.

(** X17. A location goes to the first layer of [shapes_dict] that occupies
    it: the tile of that layer occupies the location and the tile of no
    other layer does. *)
Theorem tile_shapes_owner (d out : dict (geometry C)) (i : nat)
  (name : string) (R : geometry C) (p : location) :
  NoDup (keys d) ->
  tile_shapes d = Ok out ->
  nth_error d i = Some (name, R) ->
  occupies R p = true ->
  covered (firstn i (values d)) p = false ->
  exists t,
    get out name = Some t
    /\ occupies t p = true
    /\ forall other t',
         other <> name -> get out other = Some t' -> occupies t' p = false.
Proof.
  intros Hnd Hout Hi HR Hfree.
  destruct (tile_shapes_get d out Hnd Hout i name R Hi) as (t & Hget & Hp).
  assert (Hocc : occupies t p = true).
  { rewrite (occupies_tile d i R t p Hp), HR, Hfree. reflexivity. }
  exists t. split; [exact Hget | split; [exact Hocc |]].
  intros other t' Hother Hget'.
  apply (tiles_apart d out name other t t' p Hnd Hout); auto.
Qed.

(** X18. Tiling tiles changes no region: [tile_shapes] applied to the map it
    returned gives back the keys in the order of the first argument, and
    under every key a tile with the region of the tile it was given. *)
Theorem tile_shapes_twice (d out out2 : dict (geometry C)) :
  NoDup (keys d) ->
  tile_shapes d = Ok out ->
  tile_shapes out = Ok out2 ->
  keys out2 = keys d
  /\ forall name t t2,
       get out name = Some t -> get out2 name = Some t2 ->
       forall p, occupies t2 p = occupies t p.
Proof.
  intros Hnd Hout Hout2.
  pose proof (tile_shapes_keys d out Hnd Hout) as Hkeys.
  assert (Hnd_out : NoDup (keys out)).
  { rewrite Hkeys. apply NoDup_rev. exact Hnd. }
  split.
  - rewrite (tile_shapes_keys out out2 Hnd_out Hout2), Hkeys.
    apply rev_involutive.
  - intros name t t2 Hget Hget2 p.
    destruct (tile_shapes_get_inv out out2 Hnd_out Hout2 name t2 Hget2)
      as (j & T & Hj & Hp).
    rewrite (get_nth_error out j name T Hnd_out Hj) in Hget.
    injection Hget as ->.
    rewrite (occupies_tile out j t t2 p Hp).
    destruct (occupies t p) eqn:Hocc; [| reflexivity].
    destruct (covered (firstn j (values out)) p) eqn:Hc; [| reflexivity].
    exfalso. apply covered_true in Hc as (t' & Hin & Hocc').
    apply in_firstn_nth in Hin as (j' & Hlt & Hnth).
    apply nth_error_values in Hnth as (name' & Hj').
    assert (Hne : name <> name').
    { intros ->.
      pose proof (proj1 (NoDup_nth_error (keys out)) Hnd_out) as Hinj.
      assert (j' = j); [| lia].
      apply Hinj.
      - unfold keys. rewrite length_map. apply nth_error_Some.
        rewrite Hj'. discriminate.
      - unfold keys.
        rewrite (map_nth_error fst j' out Hj'), (map_nth_error fst j out Hj).
        reflexivity. }
    pose proof (get_nth_error out j name t Hnd_out Hj) as Hg.
    pose proof (get_nth_error out j' name' t' Hnd_out Hj') as Hg'.
    pose proof (tiles_apart d out name name' t t' p Hnd Hout Hne Hg Hg' Hocc)
      as Hno.
    rewrite Hno in Hocc'. discriminate Hocc'.
Qed.

(** X19. The region of a tile does not depend on the order of the layers
    before it: in two maps that have the same layer after the same shapes
    listed in different orders, the tiles of that layer have the same
    region. *)
Theorem tile_shapes_higher_order_irrelevant
  (d d' higher higher' lower lower' out out' : dict (geometry C))
  (name : string) (R t t' : geometry C) :
  d = higher ++ (name, R) :: lower ->
  d' = higher' ++ (name, R) :: lower' ->
  Permutation (values higher) (values higher') ->
  NoDup (keys d) -> NoDup (keys d') ->
  tile_shapes d = Ok out -> tile_shapes d' = Ok out' ->
  get out name = Some t -> get out' name = Some t' ->
  forall p, occupies t p = occupies t' p.
Proof.
  intros Hd Hd' Hperm Hnd Hnd' Hout Hout' Hget Hget' p.
  assert (Hat : forall hs ls : dict (geometry C),
             nth_error (hs ++ (name, R) :: ls) (List.length hs)
             = Some (name, R)).
  { intros hs ls. rewrite nth_error_app2, Nat.sub_diag by lia. reflexivity. }
  assert (Hfirst : forall hs ls : dict (geometry C),
             firstn (List.length hs) (values (hs ++ (name, R) :: ls))
             = values hs).
  { intros hs ls. unfold values. rewrite map_app, firstn_app, length_map.
    rewrite Nat.sub_diag, firstn_0, app_nil_r.
    rewrite <- (length_map snd hs). apply firstn_all. }
  subst d d'.
  destruct (tile_shapes_get _ out Hnd Hout _ name R (Hat higher lower))
    as (t0 & Hget0 & Hp).
  destruct (tile_shapes_get _ out' Hnd' Hout' _ name R (Hat higher' lower'))
    as (t0' & Hget0' & Hp').
  rewrite Hget in Hget0. injection Hget0 as <-.
  rewrite Hget' in Hget0'. injection Hget0' as <-.
  rewrite (occupies_tile _ _ R t p Hp), (occupies_tile _ _ R t' p Hp').
  rewrite !Hfirst.
  rewrite (covered_Permutation _ _ p Hperm). reflexivity.
Qed.

End TilingCases.

(** ** The further properties at examples *)

(** A polygon and a multi-polygon, flattened. *)
Lemma to_polygons_areas_flat_witness :
  Forall (fun g => is_area g = true)
         [rectangle_polygon 0 0 2 2; squares [(5, 5)%Z; (6, 5)%Z]]
  /\ exists ps,
       to_polygons [rectangle_polygon 0 0 2 2; squares [(5, 5)%Z; (6, 5)%Z]]
       = Ok ps
       /\ forallb isinstance_Polygon ps = true
       /\ to_polygons ps = Ok ps.
Proof.
  assert (Hareas : Forall (fun g : geometry Z => is_area g = true)
                     [rectangle_polygon 0 0 2 2;
                      squares [(5, 5)%Z; (6, 5)%Z]])
    by (repeat constructor).
  split; [exact Hareas |].
  exact (to_polygons_areas_flat _ Hareas).
Defined.

(** The square with a hole keeps its rings when rounded to tens. *)
Lemma round_coordinates_keeps_rings_witness :
  closed [Coord 0%Z 0%Z None; Coord 4%Z 0%Z None; Coord 4%Z 4%Z None;
          Coord 0%Z 4%Z None; Coord 0%Z 0%Z None]
  /\ Forall closed
            [[Coord 1%Z 1%Z None; Coord 1%Z 3%Z None; Coord 3%Z 3%Z None;
              Coord 3%Z 1%Z None; Coord 1%Z 1%Z None]]
  /\ exists shell' holes',
       round_coordinates square_with_hole (-1) = Polygon shell' holes'
       /\ closed shell' /\ Forall closed holes'
       /\ List.length shell' = 5
       /\ map (@List.length (coordinate Z)) holes' = [5].
Proof.
  assert (Hshell : closed [Coord 0%Z 0%Z None; Coord 4%Z 0%Z None;
                           Coord 4%Z 4%Z None; Coord 0%Z 4%Z None;
                           Coord 0%Z 0%Z None]) by reflexivity.
  assert (Hholes : Forall closed
                     [[Coord 1%Z 1%Z None; Coord 1%Z 3%Z None;
                       Coord 3%Z 3%Z None; Coord 3%Z 1%Z None;
                       Coord 1%Z 1%Z None]])
    by (repeat constructor).
  split; [exact Hshell | split; [exact Hholes |]].
  exact (round_coordinates_keeps_rings _ _ (-1) Hshell Hholes).
Defined.

(** [path_xy] has no third coordinate. *)
Lemma round_coordinates_rounds_xy_witness :
  Forall (fun c => coord_z c = None) (coords_of path_xy)
  /\ round_coordinates path_xy (-1)
     = transform (fun x y z => rounded_coordinate (-1) (Coord x y z)) path_xy.
Proof.
  assert (Hflat : Forall (fun c : coordinate Z => coord_z c = None)
                         (coords_of path_xy))
    by (repeat constructor).
  split; [exact Hflat |].
  exact (round_coordinates_rounds_xy path_xy (-1) Hflat).
Defined.

(** Integer coordinates are not changed by rounding to 5 digits. *)
Lemma round_coordinates_fixed_witness :
  Forall (fun c => coord_z c = None
                   /\ round (coord_x c) 5 = coord_x c
                   /\ round (coord_y c) 5 = coord_y c)
         (coords_of square_with_hole)
  /\ round_coordinates square_with_hole 5 = square_with_hole.
Proof.
  assert (Hfixed : Forall (fun c : coordinate Z =>
                             coord_z c = None
                             /\ round (coord_x c) 5 = coord_x c
                             /\ round (coord_y c) 5 = coord_y c)
                          (coords_of square_with_hole))
    by (repeat constructor).
  split; [exact Hfixed |].
  exact (round_coordinates_fixed square_with_hole 5 Hfixed).
Defined.

(** Layer (2, 0) of [chip_broken]: the ring of two points is refused after
    one rectangle has been accepted. *)
Lemma fuse_polygons_raises_first_refusal_witness :
  get_polygons (extract chip_broken (2, 0)%Z)
  = [rectangle 0 0 2 2] ++ [(0, 0); (1, 1)]%Z :: [rectangle 1 1 3 3]
  /\ Forall (fun raw => exists p, new_Polygon raw = Ok p) [rectangle 0 0 2 2]
  /\ new_Polygon [(0, 0); (1, 1)]%Z = Raise "ValueError"
  /\ fuse_polygons chip_broken "clad" (2, 0)%Z 5 0%Z = Raise "ValueError".
Proof.
  assert (Hbefore : Forall (fun raw : list (Z * Z) =>
                              exists p, new_Polygon raw = Ok p)
                           [rectangle 0 0 2 2]).
  { constructor; [eexists; reflexivity | constructor]. }
  split; [reflexivity | split; [exact Hbefore | split; [reflexivity |]]].
  exact (fuse_polygons_raises_first_refusal chip_broken "clad" (2, 0)%Z 5 0%Z
           [rectangle 0 0 2 2] [rectangle 1 1 3 3] [(0, 0); (1, 1)]%Z
           "ValueError" eq_refl Hbefore eq_refl).
Defined.

(** The two squares, the first one listed once or twice. *)
Lemma fuse_polygons_ignores_repetition_witness :
  ShapelyRegions Z
  /\ (forall raw,
         In raw (get_polygons (extract two_squares (1, 0)%Z))
         <-> In raw (get_polygons (extract two_squares_repeated (1, 0)%Z)))
  /\ exists region ps ps',
       fuse_polygons two_squares "core" (1, 0)%Z 5 0%Z = Ok region
       /\ (forall g, In g ps <-> In g ps')
       /\ region = simplify (unary_union ps) 0%Z true
       /\ fuse_polygons two_squares_repeated "core" (1, 0)%Z 5 0%Z
          = Ok (simplify (unary_union ps') 0%Z true)
       /\ forall p, occupies (unary_union ps) p = occupies (unary_union ps') p.
Proof.
  assert (Hsame : forall raw,
             In raw (get_polygons (extract two_squares (1, 0)%Z))
             <-> In raw (get_polygons
                           (extract two_squares_repeated (1, 0)%Z))).
  { intros raw. simpl. tauto. }
  split; [exact grid_regions | split; [exact Hsame |]].
  destruct (fuse_polygons two_squares "core" (1, 0)%Z 5 0%Z)
    as [region | e] eqn:Hrun; [| vm_compute in Hrun; discriminate Hrun].
  destruct (fuse_polygons_ignores_repetition two_squares two_squares_repeated
              "core" (1, 0)%Z 5 0%Z Hsame region Hrun)
    as (ps & ps' & Hsets & Hregion & Hrun' & Hocc).
  exists region, ps, ps'.
  split; [reflexivity | split; [exact Hsets | split; [exact Hregion |]]].
  split; [exact Hrun' | exact Hocc].
Defined.

(** On [chip_broken] the cladding cannot be fused: the core has been fused,
    the top layer is not tried. *)
Lemma cleanup_component_stops_at_failure_witness :
  to_dict stack_broken
  = [("core", {| layer := Some (1, 0)%Z |});
     ("substrate", {| layer := None |})]
    ++ ("clad", {| layer := Some (2, 0)%Z |})
       :: [("top", {| layer := Some (3, 0)%Z |})]
  /\ fuse_polygons chip_broken "clad" (2, 0)%Z 2 0%Z = Raise "ValueError"
  /\ cleanup_component chip_broken stack_broken 2 0%Z
     = ([FuseCall "core" (1, 0)%Z 2 0%Z; FuseCall "clad" (2, 0)%Z 2 0%Z],
        Raise "ValueError").
Proof.
  split; [reflexivity | split; [reflexivity |]].
  apply (cleanup_component_stops_at_failure chip_broken 2 0%Z stack_broken
           [("core", {| layer := Some (1, 0)%Z |});
            ("substrate", {| layer := None |})]
           [("top", {| layer := Some (3, 0)%Z |})]
           "clad" {| layer := Some (2, 0)%Z |} (2, 0)%Z "ValueError").
  - reflexivity.
  - reflexivity.
  - constructor; [eexists; reflexivity |].
    constructor; [exact I | constructor].
  - reflexivity.
Defined.

(** [stack_defined] is [stack] without the substrate. *)
Lemma cleanup_component_ignores_null_layers_witness :
  to_dict stack_defined
  = filter (fun item => match layer (snd item) with
                        | Some _ => true
                        | None => false
                        end) (to_dict stack)
  /\ cleanup_component chip stack_defined 2 0%Z
     = cleanup_component chip stack 2 0%Z.
Proof.
  split; [reflexivity |].
  exact (cleanup_component_ignores_null_layers chip 2 0%Z stack stack_defined
           eq_refl).
Defined.

(** Fusing [chip] with [stack] and tiling the result: cladding, then core. *)
Lemma cleanup_then_tile_keys_witness :
  NoDup (keys (to_dict stack))
  /\ exists calls fused out,
       cleanup_component chip stack 2 0%Z = (calls, Ok fused)
       /\ NoDup (keys fused)
       /\ tile_shapes fused = Ok out
       /\ keys out = ["clad"; "core"].
Proof.
  split; [exact NoDup_stack |].
  destruct (cleanup_component chip stack 2 0%Z) as [calls [fused | e]] eqn:Hrun;
    [| vm_compute in Hrun; discriminate Hrun].
  destruct (tile_shapes fused) as [out | e] eqn:Hout.
  - destruct (cleanup_then_tile_keys chip 2 0%Z stack calls fused NoDup_stack
                Hrun) as (Hnd & Htile).
    exists calls, fused, out.
    split; [reflexivity | split; [exact Hnd | split; [exact Hout |]]].
    exact (proj1 (Htile out Hout)).
  - exfalso. vm_compute in Hrun. injection Hrun as _ <-.
    vm_compute in Hout. discriminate Hout.
Defined.


(** The core alone, and the core with the cladding added after it. *)
Lemma tile_shapes_unchanged_by_lower_layers_witness :
  NoDup (keys ([("core", rectangle_polygon 0 0 10 10)]
               ++ [("clad", rectangle_polygon 0 0 20 20)]))
  /\ exists out out',
       tile_shapes [("core", rectangle_polygon 0 0 10 10)] = Ok out
       /\ tile_shapes ([("core", rectangle_polygon 0 0 10 10)]
                       ++ [("clad", rectangle_polygon 0 0 20 20)]) = Ok out'
       /\ get out' "core" = get out "core".
Proof.
  split; [exact NoDup_core_in_clad |].
  destruct (tile_shapes [("core", rectangle_polygon 0 0 10 10)])
    as [out | e] eqn:Hout; [| vm_compute in Hout; discriminate Hout].
  destruct (tile_shapes ([("core", rectangle_polygon 0 0 10 10)]
                         ++ [("clad", rectangle_polygon 0 0 20 20)]))
    as [out' | e] eqn:Hout'; [| vm_compute in Hout'; discriminate Hout'].
  exists out, out'. split; [reflexivity | split; [reflexivity |]].
  exact (tile_shapes_unchanged_by_lower_layers
           [("core", rectangle_polygon 0 0 10 10)]
           [("clad", rectangle_polygon 0 0 20 20)] out out'
           NoDup_core_in_clad Hout Hout' "core" (or_introl eq_refl)).
Defined.

(** The cell (15, 15) lies in the cladding only, the second layer. *)
Lemma tile_shapes_owner_witness :
  ShapelyRegions Z /\ NoDup (keys core_in_clad)
  /\ occupies (rectangle_polygon 0 0 20 20) (15, 15)%Z = true
  /\ covered (firstn 1 (values core_in_clad)) (15, 15)%Z = false
  /\ exists out t,
       tile_shapes core_in_clad = Ok out
       /\ get out "clad" = Some t
       /\ occupies t (15, 15)%Z = true
       /\ forall other t',
            other <> "clad" -> get out other = Some t' ->
            occupies t' (15, 15)%Z = false.
Proof.
  split; [exact grid_regions | split; [exact NoDup_core_in_clad |]].
  split; [reflexivity | split; [reflexivity |]].
  destruct (tile_shapes core_in_clad) as [out | e] eqn:Hout;
    [| vm_compute in Hout; discriminate Hout].
  destruct (@tile_shapes_owner Z grid_shapely grid_plane grid_regions
              core_in_clad out 1 "clad"
              (rectangle_polygon 0 0 20 20) (15, 15)%Z
              NoDup_core_in_clad Hout eq_refl eq_refl eq_refl)
    as (t & Hget & Hocc & Hothers).
  exists out, t.
  split; [reflexivity | split; [exact Hget | split; [exact Hocc |]]].
  exact Hothers.
Defined.

Lemma NoDup_three_layers : NoDup (keys three_layers).
Proof.
  repeat constructor; simpl; intuition discriminate.
Qed.

Lemma NoDup_three_layers_swapped : NoDup (keys three_layers_swapped).
Proof.
  repeat constructor; simpl; intuition discriminate.
Qed.

(** The three layers, tiled twice. *)
Lemma tile_shapes_twice_witness :
  ShapelyRegions Z /\ NoDup (keys three_layers)
  /\ exists out out2,
       tile_shapes three_layers = Ok out
       /\ tile_shapes out = Ok out2
       /\ keys out2 = keys three_layers
       /\ forall name t t2,
            get out name = Some t -> get out2 name = Some t2 ->
            forall p, occupies t2 p = occupies t p.
Proof.
  split; [exact grid_regions | split; [exact NoDup_three_layers |]].
  destruct (tile_shapes three_layers) as [out | e] eqn:Hout;
    [| vm_compute in Hout; discriminate Hout].
  destruct (tile_shapes out) as [out2 | e] eqn:Hout2.
  - exists out, out2. split; [reflexivity | split; [exact Hout2 |]].
    exact (tile_shapes_twice three_layers out out2 NoDup_three_layers
             Hout Hout2).
  - exfalso. vm_compute in Hout. injection Hout as <-.
    vm_compute in Hout2. discriminate Hout2.
Defined.

(** The cladding under the core and the slab, in both orders. *)
Lemma tile_shapes_higher_order_irrelevant_witness :
  ShapelyRegions Z
  /\ Permutation
       (values [("core", rectangle_polygon 0 0 2 2);
                ("slab", rectangle_polygon 1 1 4 4)])
       (values [("slab", rectangle_polygon 1 1 4 4);
                ("core", rectangle_polygon 0 0 2 2)])
  /\ NoDup (keys three_layers) /\ NoDup (keys three_layers_swapped)
  /\ exists out out' t t',
       tile_shapes three_layers = Ok out
       /\ tile_shapes three_layers_swapped = Ok out'
       /\ get out "clad" = Some t /\ get out' "clad" = Some t'
       /\ forall p, occupies t p = occupies t' p.
Proof.
  assert (Hperm : Permutation
                    (values [("core", rectangle_polygon 0 0 2 2);
                             ("slab", rectangle_polygon 1 1 4 4)])
                    (values [("slab", rectangle_polygon 1 1 4 4);
                             ("core", rectangle_polygon 0 0 2 2)]))
    by apply perm_swap.
  split; [exact grid_regions | split; [exact Hperm |]].
  split; [exact NoDup_three_layers |].
  split; [exact NoDup_three_layers_swapped |].
  destruct (tile_shapes three_layers) as [out | e] eqn:Hout;
    [| vm_compute in Hout; discriminate Hout].
  destruct (tile_shapes three_layers_swapped) as [out' | e] eqn:Hout';
    [| vm_compute in Hout'; discriminate Hout'].
  destruct (get out "clad") as [t |] eqn:Hget.
  2: { exfalso. vm_compute in Hout. injection Hout as <-.
       vm_compute in Hget. discriminate Hget. }
  destruct (get out' "clad") as [t' |] eqn:Hget'.
  2: { exfalso. vm_compute in Hout'. injection Hout' as <-.
       vm_compute in Hget'. discriminate Hget'. }
  exists out, out', t, t'.
  split; [reflexivity | split; [reflexivity |]].
  split; [exact Hget | split; [exact Hget' |]].
  exact (tile_shapes_higher_order_irrelevant
           three_layers three_layers_swapped
           [("core", rectangle_polygon 0 0 2 2);
            ("slab", rectangle_polygon 1 1 4 4)]
           [("slab", rectangle_polygon 1 1 4 4);
            ("core", rectangle_polygon 0 0 2 2)]
           [] [] out out' "clad" (rectangle_polygon 0 0 5 5) t t'
           eq_refl eq_refl Hperm NoDup_three_layers
           NoDup_three_layers_swapped Hout Hout' Hget Hget').
Defined.
